(** * pako-esm: the streaming deflate driver

  A shallow embedding of [lib/deflate.js] (the [Deflate] wrapper class, its
  [push] chunk loop, the default [onData] / [onEnd] handlers and the one-shot
  functions [deflate], [deflateRaw], [gzip]), of [lib/utils/common.js]
  ([assign], [flattenChunks]), of [lib/zlib/zstream.js] and of
  [lib/zlib/constants.js].

  The compression engine itself ([lib/zlib/deflate.js]), the string helpers
  ([lib/utils/strings.js]) and the message table ([lib/zlib/messages.js]) are
  imported by the driver but are not part of the development: they appear
  below as the fields of one interface, [Imports], over which every
  definition of the driver is parametric. *)

From Stdlib Require Import ZArith List Lia Bool Init.Byte.
From Stdlib Require Strings.String Strings.Ascii Strings.Byte DecimalString.
From stdpp Require Import base gmap strings list.
Import ListNotations.

Local Open Scope string_scope.
Local Open Scope list_scope.
Local Open Scope Z_scope.

(** ** lib/zlib/constants.js *)

Module constants.
(* Flush values *)
Definition Z_NO_FLUSH : Z := 0.
Definition Z_PARTIAL_FLUSH : Z := 1.
Definition Z_SYNC_FLUSH : Z := 2.
Definition Z_FULL_FLUSH : Z := 3.
Definition Z_FINISH : Z := 4.
Definition Z_BLOCK : Z := 5.
Definition Z_TREES : Z := 6.

(* Return codes *)
Definition Z_OK : Z := 0.
Definition Z_STREAM_END : Z := 1.
Definition Z_NEED_DICT : Z := 2.
Definition Z_ERRNO : Z := 1.
Definition Z_STREAM_ERROR : Z := 2.
Definition Z_DATA_ERROR : Z := 3.
Definition Z_MEM_ERROR : Z := 4.
Definition Z_BUF_ERROR : Z := 5.
Definition Z_VERSION_ERROR : Z := -6.

(* Compression levels *)
Definition Z_NO_COMPRESSION : Z := 0.
Definition Z_BEST_SPEED : Z := 1.
Definition Z_BEST_COMPRESSION : Z := 9.
Definition Z_DEFAULT_COMPRESSION : Z := 1.

Definition Z_FILTERED : Z := 1.
Definition Z_HUFFMAN_ONLY : Z := 2.
Definition Z_RLE : Z := 3.
Definition Z_FIXED : Z := 4.
Definition Z_DEFAULT_STRATEGY : Z := 0.

(* Possible data types *)
Definition Z_BINARY : Z := 0.
Definition Z_TEXT : Z := 1.
Definition Z_UNKNOWN : Z := 2.

(* The deflate compression method *)
Definition Z_DEFLATED : Z := 8.

(** The exported return codes that name an error, in source order. *)
Definition error_codes : list (string * Z) :=
  [ ("Z_ERRNO", Z_ERRNO); ("Z_STREAM_ERROR", Z_STREAM_ERROR);
    ("Z_DATA_ERROR", Z_DATA_ERROR); ("Z_MEM_ERROR", Z_MEM_ERROR);
    ("Z_BUF_ERROR", Z_BUF_ERROR); ("Z_VERSION_ERROR", Z_VERSION_ERROR) ].
End constants.

(** ** constants.d.ts: the values the package declares for the same names *)

Module constants_d_ts.
Definition Z_OK : Z := 0.
Definition Z_STREAM_END : Z := 1.
Definition Z_NEED_DICT : Z := 2.
Definition Z_ERRNO : Z := -1.
Definition Z_STREAM_ERROR : Z := -2.
Definition Z_DATA_ERROR : Z := -3.
Definition Z_BUF_ERROR : Z := -5.
Definition Z_DEFAULT_COMPRESSION : Z := -1.

Definition error_codes : list (string * Z) :=
  [ ("Z_ERRNO", Z_ERRNO); ("Z_STREAM_ERROR", Z_STREAM_ERROR);
    ("Z_DATA_ERROR", Z_DATA_ERROR); ("Z_BUF_ERROR", Z_BUF_ERROR) ].
End constants_d_ts.

(** A status code [c] is a proper error code when it is neither ok (0) nor
  stream end (1). *)
Definition is_error_code (c : Z) : bool :=
  negb (c =? constants.Z_OK) && negb (c =? constants.Z_STREAM_END).

(** ** types.d.ts *)

Module types.
Record Header := {
  text : option bool;
  time : option Z;
  os : option Z;
  extra : option (list Z);
  name : option string;
  comment : option string;
  hcrc : option bool
}.
End types.

(** ** lib/utils/common.js *)

Module common.

(** [result.set(chunk, pos)] on a typed array, for a chunk that fits
    ([pos + chunk.length <= result.length], which is all [flattenChunks]
    ever asks for; the built-in raises a RangeError otherwise). *)
Definition set (result chunk : list byte) (pos : nat) : list byte :=
  firstn pos result ++ chunk ++ skipn (pos + length chunk) result.

(** Join array of chunks to single array. *)
Definition flattenChunks (chunks : list (list byte)) : list byte :=
  (* calculate data length *)
  let len := fold_left (fun len chunk => (len + length chunk)%nat) chunks 0%nat in
  (* join chunks *)
  let result := repeat x00 len in
  fst (fold_left
         (fun '(result, pos) chunk =>
            (set result chunk pos, (pos + length chunk)%nat))
         chunks (result, 0%nat)).

(** Modelled from the spec: [Buf8], the constructor of the output buffer,
    which [lib/deflate.js] takes from this module but which the module does
    not define.  "Allocate a fresh output buffer of the configured chunk
    capacity": [chunkSize] bytes, zero-filled as a new typed array is.  The
    spec requires the capacity to be positive. *)
Definition Buf8 (chunkSize : Z) : list byte :=
  repeat x00 (Z.to_nat chunkSize).

(** Modelled from the spec: [shrinkBuf], likewise used by [lib/deflate.js]
    and not defined here.  "The filled portion of the output buffer (from 0
    to output cursor)". *)
Definition shrinkBuf (buf : list byte) (size : Z) : list byte :=
  firstn (Z.to_nat size) buf.

End common.

(** ** lib/zlib/zstream.js *)

Module zstream.
Section ZStream.
(** The engine's private state is opaque to the driver. *)
Variable EngineState : Type.

(** [input] and [output] are [null] in a new stream; a null buffer is
    represented by the empty list (the driver assigns [input] before it
    reads its length). *)
Record ZStream := {
  (* next input byte *)
  input : list byte;
  next_in : Z;
  (* number of bytes available at input *)
  avail_in : Z;
  (* total number of input bytes read so far *)
  total_in : Z;
  (* next output byte should be put there *)
  output : list byte;
  next_out : Z;
  (* remaining free space at output *)
  avail_out : Z;
  (* total number of bytes output so far *)
  total_out : Z;
  (* last error message, NULL if no error *)
  msg : string;
  (* not visible by applications *)
  state : option EngineState;
  (* best guess about the data type: binary or text *)
  data_type : Z;
  (* adler32 value of the uncompressed data *)
  adler : Z
}.

(** [new ZStream()] *)
Definition new : ZStream := {|
    input := []; next_in := 0; avail_in := 0; total_in := 0;
    output := []; next_out := 0; avail_out := 0; total_out := 0;
    msg := ""; state := None; data_type := 2 (* Z_UNKNOWN *); adler := 0
  |}.

(** Field assignments [strm.f = v]. *)
Definition set_input (v : list byte) (s : ZStream) : ZStream :=
    {| input := v; next_in := next_in s; avail_in := avail_in s;
       total_in := total_in s; output := output s; next_out := next_out s;
       avail_out := avail_out s; total_out := total_out s; msg := msg s;
       state := state s; data_type := data_type s; adler := adler s |}.
Definition set_next_in (v : Z) (s : ZStream) : ZStream :=
    {| input := input s; next_in := v; avail_in := avail_in s;
       total_in := total_in s; output := output s; next_out := next_out s;
       avail_out := avail_out s; total_out := total_out s; msg := msg s;
       state := state s; data_type := data_type s; adler := adler s |}.
Definition set_avail_in (v : Z) (s : ZStream) : ZStream :=
    {| input := input s; next_in := next_in s; avail_in := v;
       total_in := total_in s; output := output s; next_out := next_out s;
       avail_out := avail_out s; total_out := total_out s; msg := msg s;
       state := state s; data_type := data_type s; adler := adler s |}.
Definition set_output (v : list byte) (s : ZStream) : ZStream :=
    {| input := input s; next_in := next_in s; avail_in := avail_in s;
       total_in := total_in s; output := v; next_out := next_out s;
       avail_out := avail_out s; total_out := total_out s; msg := msg s;
       state := state s; data_type := data_type s; adler := adler s |}.
Definition set_next_out (v : Z) (s : ZStream) : ZStream :=
    {| input := input s; next_in := next_in s; avail_in := avail_in s;
       total_in := total_in s; output := output s; next_out := v;
       avail_out := avail_out s; total_out := total_out s; msg := msg s;
       state := state s; data_type := data_type s; adler := adler s |}.
Definition set_avail_out (v : Z) (s : ZStream) : ZStream :=
    {| input := input s; next_in := next_in s; avail_in := avail_in s;
       total_in := total_in s; output := output s; next_out := next_out s;
       avail_out := v; total_out := total_out s; msg := msg s;
       state := state s; data_type := data_type s; adler := adler s |}.
Definition set_total_in (v : Z) (s : ZStream) : ZStream :=
    {| input := input s; next_in := next_in s; avail_in := avail_in s;
       total_in := v; output := output s; next_out := next_out s;
       avail_out := avail_out s; total_out := total_out s; msg := msg s;
       state := state s; data_type := data_type s; adler := adler s |}.
Definition set_total_out (v : Z) (s : ZStream) : ZStream :=
    {| input := input s; next_in := next_in s; avail_in := avail_in s;
       total_in := total_in s; output := output s; next_out := next_out s;
       avail_out := avail_out s; total_out := v; msg := msg s;
       state := state s; data_type := data_type s; adler := adler s |}.
Definition set_msg (v : string) (s : ZStream) : ZStream :=
    {| input := input s; next_in := next_in s; avail_in := avail_in s;
       total_in := total_in s; output := output s; next_out := next_out s;
       avail_out := avail_out s; total_out := total_out s; msg := v;
       state := state s; data_type := data_type s; adler := adler s |}.
Definition set_state (v : option EngineState) (s : ZStream) : ZStream :=
    {| input := input s; next_in := next_in s; avail_in := avail_in s;
       total_in := total_in s; output := output s; next_out := next_out s;
       avail_out := avail_out s; total_out := total_out s; msg := msg s;
       state := v; data_type := data_type s; adler := adler s |}.
End ZStream.

Arguments input {_} _.
Arguments next_in {_} _.
Arguments avail_in {_} _.
Arguments total_in {_} _.
Arguments output {_} _.
Arguments next_out {_} _.
Arguments avail_out {_} _.
Arguments total_out {_} _.
Arguments msg {_} _.
Arguments state {_} _.
Arguments data_type {_} _.
Arguments adler {_} _.
Arguments new {_}.
Arguments set_input {_} _ _.
Arguments set_next_in {_} _ _.
Arguments set_avail_in {_} _ _.
Arguments set_output {_} _ _.
Arguments set_next_out {_} _ _.
Arguments set_avail_out {_} _ _.
Arguments set_total_in {_} _ _.
Arguments set_total_out {_} _ _.
Arguments set_msg {_} _ _.
Arguments set_state {_} _ _.
End zstream.

(** * lib/deflate.js *)

(** ** Values that cross the driver's interface *)

(** Input accepted by [push] and as a preset dictionary:
    [Uint8Array|Array|ArrayBuffer|String]. *)
Inductive Data :=
| DataString (s : string)            (* typeof data === 'string' *)
| DataArrayBuffer (b : list byte)    (* '[object ArrayBuffer]' *)
| DataBytes (b : list byte).         (* Uint8Array or Array of bytes *)

(** [mode (Number|Boolean)], possibly skipped. *)
Inductive Mode :=
| ModeNumber (n : Z)
| ModeBool (b : bool)
| ModeUndefined.

(** An output chunk, and the aggregated result: a byte array, or a binary
    string when [to === 'string']. *)
Inductive Chunk :=
| ChunkBytes (b : list byte)
| ChunkString (s : string).

(** What a [throw] carries: [new Error(message)], or the bare value thrown by
    the one-shot functions (a string, or [undefined] when the message table
    has no entry). *)
Inductive Thrown :=
| ThrowError (message : option string)
| ThrowValue (v : option string).

(** Calls of the two handlers, in the order [push] makes them. *)
Inductive Call :=
| OnData (chunk : Chunk)
| OnEnd (status : Z).

(** The options object a caller passes in: every key may be absent. *)
Module arg.
Record Options := {
    level : option Z;
    method : option Z;
    chunkSize : option Z;
    windowBits : option Z;
    memLevel : option Z;
    strategy : option Z;
    to : option string;
    raw : option bool;
    gzip : option bool;
    header : option types.Header;
    dictionary : option Data
  }.

  (** [{}] *)
Definition empty : Options := {|
    level := None; method := None; chunkSize := None; windowBits := None;
    memLevel := None; strategy := None; to := None; raw := None; gzip := None;
    header := None; dictionary := None |}.

  (** [options.raw = v] *)
Definition set_raw (v : bool) (o : Options) : Options := {|
    level := level o; method := method o; chunkSize := chunkSize o;
    windowBits := windowBits o; memLevel := memLevel o; strategy := strategy o;
    to := to o; raw := Some v; gzip := gzip o; header := header o;
    dictionary := dictionary o |}.

  (** [options.gzip = v] *)
Definition set_gzip (v : bool) (o : Options) : Options := {|
    level := level o; method := method o; chunkSize := chunkSize o;
    windowBits := windowBits o; memLevel := memLevel o; strategy := strategy o;
    to := to o; raw := raw o; gzip := Some v; header := header o;
    dictionary := dictionary o |}.
End arg.

(** The driver's own options object [this.options] (called [opt] in the
    constructor): the seven keys of the defaults literal are always present. *)
Module opt.
Record Options := {
    level : Z;
    method : Z;
    chunkSize : Z;
    windowBits : Z;
    memLevel : Z;
    strategy : Z;
    to : string;
    raw : option bool;
    gzip : option bool;
    header : option types.Header;
    dictionary : option Data
  }.

  (** [opt.windowBits = v] *)
Definition set_windowBits (v : Z) (o : Options) : Options := {|
    level := level o; method := method o; chunkSize := chunkSize o;
    windowBits := v; memLevel := memLevel o; strategy := strategy o;
    to := to o; raw := raw o; gzip := gzip o; header := header o;
    dictionary := dictionary o |}.
End opt.

(** [Object.assign(target, source)] ([commons.assign]) for a target holding
    the defaults: every key present in [source] overrides the target's. *)
Definition assign (target : opt.Options) (source : arg.Options) : opt.Options := {|
  opt.level := default (opt.level target) (arg.level source);
  opt.method := default (opt.method target) (arg.method source);
  opt.chunkSize := default (opt.chunkSize target) (arg.chunkSize source);
  opt.windowBits := default (opt.windowBits target) (arg.windowBits source);
  opt.memLevel := default (opt.memLevel target) (arg.memLevel source);
  opt.strategy := default (opt.strategy target) (arg.strategy source);
  opt.to := default (opt.to target) (arg.to source);
  opt.raw := match arg.raw source with Some v => Some v | None => opt.raw target end;
  opt.gzip := match arg.gzip source with Some v => Some v | None => opt.gzip target end;
  opt.header := match arg.header source with Some v => Some v | None => opt.header target end;
  opt.dictionary :=
    match arg.dictionary source with Some v => Some v | None => opt.dictionary target end
|}.

(* Public constants ==========================================================*)

Definition Z_NO_FLUSH : Z := 0.
Definition Z_FINISH : Z := 4.

Definition Z_OK : Z := 0.
Definition Z_STREAM_END : Z := 1.
Definition Z_SYNC_FLUSH : Z := 2.

Definition Z_DEFAULT_COMPRESSION : Z := -1.

Definition Z_DEFAULT_STRATEGY : Z := 0.

Definition Z_DEFLATED : Z := 8.

(** The defaults literal of the constructor. *)
Definition defaults : opt.Options := {|
  opt.level := Z_DEFAULT_COMPRESSION;
  opt.method := Z_DEFLATED;
  opt.chunkSize := 16384;
  opt.windowBits := 15;
  opt.memLevel := 8;
  opt.strategy := Z_DEFAULT_STRATEGY;
  opt.to := "";
  opt.raw := None; opt.gzip := None; opt.header := None; opt.dictionary := None
|}.

(** Truthiness of a flag that is a boolean when present. *)
Definition truthy (flag : option bool) : bool := default false flag.

(** Truthiness of [opt.dictionary]: absent and the empty string are falsy,
    every buffer is an object and so truthy. *)
Definition truthy_data (d : option Data) : bool :=
  match d with
  | None => false
  | Some (DataString s) => negb (String.eqb s "")
  | Some _ => true
  end.

(** The two window-bits adjustments of the constructor. *)
Definition adjust_windowBits (opt : opt.Options) : opt.Options :=
  if truthy (opt.raw opt) && (opt.windowBits opt >? 0) then
    opt.set_windowBits (- opt.windowBits opt) opt
  else if truthy (opt.gzip opt) && (opt.windowBits opt >? 0)
          && (opt.windowBits opt <? 16) then
    opt.set_windowBits (opt.windowBits opt + 16) opt
  else opt.

(** [this.options] as the constructor leaves it: the merge onto the defaults,
    [options || {}] standing for an absent argument, then the adjustment. *)
Definition Deflate_options (options : option arg.Options) : opt.Options :=
  adjust_windowBits (assign defaults (default arg.empty options)).

(** [~~mode]: conversion to a signed 32-bit integer. *)
Definition to_int32 (n : Z) : Z := (n + 2 ^ 31) mod 2 ^ 32 - 2 ^ 31.

(** [_mode = (mode === ~~mode) ? mode : ((mode === true) ? Z_FINISH : Z_NO_FLUSH)] *)
Definition flush_mode (mode : Mode) : Z :=
  match mode with
  | ModeNumber n => if n =? to_int32 n then n else Z_NO_FLUSH
  | ModeBool true => Z_FINISH
  | ModeBool false => Z_NO_FLUSH
  | ModeUndefined => Z_NO_FLUSH
  end.

(** Modelled from the spec: [strings.buf2binstring] of the absent
    [lib/utils/strings.js], "decode to a textual binary string where each
    character's code equals one byte value 0-255". *)
Definition buf2binstring (buf : list byte) : string :=
  String.string_of_list_byte buf.

(** The implicit conversions the two aggregations apply to a chunk of the
    other kind.  [Array.prototype.join] turns each element into a string: a
    string is itself, a byte array prints its elements in decimal separated by
    commas. *)
Definition decimal (b : byte) : string :=
  DecimalString.NilZero.string_of_uint (N.to_uint (Byte.to_N b)).

Definition chunk_toString (c : Chunk) : string :=
  match c with
  | ChunkString s => s
  | ChunkBytes b => String.concat "," (map decimal b)
  end.

(** [result.set(chunk, pos)] reads an array-like element by element and
    converts each to a number: a byte is itself; a one-character string is its
    digit value, and 0 when it is not a digit. *)
Definition char_toNumber (c : Ascii.ascii) : byte :=
  let n := Ascii.N_of_ascii c in
  if ((48 <=? n) && (n <=? 57))%N
  then default x00 (Byte.of_N (n - 48)) else x00.

Definition chunk_bytes (c : Chunk) : list byte :=
  match c with
  | ChunkBytes b => b
  | ChunkString s => map char_toNumber (String.list_ascii_of_string s)
  end.

(** ** The imported modules

    [zlib_deflate] is [lib/zlib/deflate.js], the compression engine: each of
    its functions receives the stream object, mutates it and returns a status;
    here it returns the status and the stream as it leaves it.
    [deflateSetHeader]'s status is discarded by the driver.  [string2buf] is
    the UTF-8 encoder of [lib/utils/strings.js]; [messages] is the table of
    [lib/zlib/messages.js], indexed by status code. *)
Class Imports (EngineState : Type) := {
  zlib_deflate_deflateInit2 :
    zstream.ZStream EngineState -> Z -> Z -> Z -> Z -> Z ->
    Z * zstream.ZStream EngineState;
  zlib_deflate_deflateSetHeader :
    zstream.ZStream EngineState -> types.Header -> zstream.ZStream EngineState;
  zlib_deflate_deflateSetDictionary :
    zstream.ZStream EngineState -> list byte -> Z * zstream.ZStream EngineState;
  zlib_deflate_deflate :
    zstream.ZStream EngineState -> Z -> Z * zstream.ZStream EngineState;
  zlib_deflate_deflateEnd :
    zstream.ZStream EngineState -> Z * zstream.ZStream EngineState;
  strings_string2buf : string -> list byte;
  messages : Z -> option string
}.

Section Driver.

Context {EngineState : Type} `{!Imports EngineState}.

Local Abbreviation ZStream := (zstream.ZStream EngineState).

  (** *** class Deflate

    [onData] and [onEnd] below are the handlers the prototype defines.  A
    caller may replace them on an instance; such handlers are not part of the
    library and are not modelled.  [push] reports the handler calls it makes,
    so that statements about when a handler is called do not depend on what
    the default handlers do with the call. *)

Record Deflate := {
    options : opt.Options;
    err : Z;               (* error code, if happens (0 = Z_OK) *)
    msg : string;          (* error message *)
    ended : bool;          (* used to avoid multiple onEnd() calls *)
    chunks : list Chunk;   (* chunks of compressed data *)
    strm : ZStream;
    result : option Chunk; (* unset until onEnd joins the chunks *)
    _dict_set : bool       (* unset (false) until a dictionary is registered *)
  }.

  (** Field assignments [this.f = v]. *)
Definition set_err (v : Z) (this : Deflate) : Deflate :=
    {| options := options this; err := v; msg := msg this; ended := ended this;
       chunks := chunks this; strm := strm this; result := result this;
       _dict_set := _dict_set this |}.
Definition set_msg (v : string) (this : Deflate) : Deflate :=
    {| options := options this; err := err this; msg := v; ended := ended this;
       chunks := chunks this; strm := strm this; result := result this;
       _dict_set := _dict_set this |}.
Definition set_ended (v : bool) (this : Deflate) : Deflate :=
    {| options := options this; err := err this; msg := msg this; ended := v;
       chunks := chunks this; strm := strm this; result := result this;
       _dict_set := _dict_set this |}.
Definition set_chunks (v : list Chunk) (this : Deflate) : Deflate :=
    {| options := options this; err := err this; msg := msg this;
       ended := ended this; chunks := v; strm := strm this;
       result := result this; _dict_set := _dict_set this |}.
Definition set_strm (v : ZStream) (this : Deflate) : Deflate :=
    {| options := options this; err := err this; msg := msg this;
       ended := ended this; chunks := chunks this; strm := v;
       result := result this; _dict_set := _dict_set this |}.
Definition set_result (v : option Chunk) (this : Deflate) : Deflate :=
    {| options := options this; err := err this; msg := msg this;
       ended := ended this; chunks := chunks this; strm := strm this;
       result := v; _dict_set := _dict_set this |}.
Definition set_dict_set (v : bool) (this : Deflate) : Deflate :=
    {| options := options this; err := err this; msg := msg this;
       ended := ended this; chunks := chunks this; strm := strm this;
       result := result this; _dict_set := v |}.

  (** Convert data if needed (shared by the constructor's dictionary and by
      [push]). *)
Definition convert (data : Data) : list byte :=
    match data with
    | DataString s => strings_string2buf s
    | DataArrayBuffer b => b
    | DataBytes b => b
    end.

  (** *** new Deflate(options)

      [inl] is the exception thrown on bad params. *)
Definition Deflate_new (options : option arg.Options) : Thrown + Deflate :=
    let opt := Deflate_options options in
    let strm0 := zstream.set_avail_out 0 zstream.new in
    let '(status, strm1) :=
      zlib_deflate_deflateInit2 strm0 (opt.level opt) (opt.method opt)
        (opt.windowBits opt) (opt.memLevel opt) (opt.strategy opt) in
    if negb (status =? Z_OK) then inl (ThrowError (messages status))
    else
      let strm2 :=
        match opt.header opt with
        | Some header => zlib_deflate_deflateSetHeader strm1 header
        | None => strm1
        end in
      let this := {| options := opt; err := 0; msg := ""; ended := false;
                     chunks := []; strm := strm2; result := None;
                     _dict_set := false |} in
      if truthy_data (opt.dictionary opt) then
        let dict := convert (default (DataBytes []) (opt.dictionary opt)) in
        let '(status, strm3) := zlib_deflate_deflateSetDictionary strm2 dict in
        if negb (status =? Z_OK) then inl (ThrowError (messages status))
        else inr (set_dict_set true (set_strm strm3 this))
      else inr this.

  (** *** Deflate#onData(chunk) *)
Definition onData (chunk : Chunk) (this : Deflate) : Deflate :=
    set_chunks (chunks this ++ [chunk]) this.

  (** *** Deflate#onEnd(status) *)
Definition onEnd (status : Z) (this : Deflate) : Deflate :=
    (* On success - join *)
    let this :=
      if status =? Z_OK then
        if String.eqb (opt.to (options this)) "string" then
          set_result
            (Some (ChunkString (String.concat "" (map chunk_toString (chunks this)))))
            this
        else
          set_result
            (Some (ChunkBytes (common.flattenChunks (map chunk_bytes (chunks this)))))
            this
      else this in
    let this := set_chunks [] this in
    let this := set_err status this in
    set_msg (zstream.msg (strm this)) this.

  (** *** Deflate#push(data[, mode])

      One pass through the body of the [do ... while] loop either leaves
      [push] through the [return false] of the error branch, or reaches the
      loop test. *)
Inductive Iteration :=
  | IterReturn (this : Deflate) (calls : list Call)
  | IterTest (continue : bool) (status : Z) (this : Deflate) (calls : list Call).

  (** The allocation at the top of the body. *)
Definition fresh_output (chunkSize : Z) (strm : ZStream) : ZStream :=
    if zstream.avail_out strm =? 0 then
      let strm := zstream.set_output (common.Buf8 chunkSize) strm in
      let strm := zstream.set_next_out 0 strm in
      zstream.set_avail_out chunkSize strm
    else strm.

  (** The test that guards the [onData] call. *)
Definition emits (strm : ZStream) (_mode : Z) : bool :=
    (zstream.avail_out strm =? 0)
    || ((zstream.avail_in strm =? 0)
        && ((_mode =? Z_FINISH) || (_mode =? Z_SYNC_FLUSH))).

  (** The chunk handed to [onData]. *)
Definition emitted_chunk (to : string) (strm : ZStream) : Chunk :=
    if String.eqb to "string" then
      ChunkString
        (buf2binstring (common.shrinkBuf (zstream.output strm) (zstream.next_out strm)))
    else
      ChunkBytes (common.shrinkBuf (zstream.output strm) (zstream.next_out strm)).

  (** The [while] condition. *)
Definition continues (strm : ZStream) (status : Z) : bool :=
    ((zstream.avail_in strm >? 0) || (zstream.avail_out strm =? 0))
    && negb (status =? Z_STREAM_END).

Definition push_body (chunkSize _mode : Z) (this : Deflate) : Iteration :=
    let this := set_strm (fresh_output chunkSize (strm this)) this in
    let '(status, strm') := zlib_deflate_deflate (strm this) _mode in  (* no bad return value *)
    let this := set_strm strm' this in
    if negb (status =? Z_STREAM_END) && negb (status =? Z_OK) then
      let this := onEnd status this in
      let this := set_ended true this in
      IterReturn this [OnEnd status]
    else
      let '(this, calls) :=
        if emits (strm this) _mode then
          let chunk := emitted_chunk (opt.to (options this)) (strm this) in
          (onData chunk this, [OnData chunk])
        else (this, []) in
      IterTest (continues (strm this) status) status this calls.

  (** How the loop is left. *)
Inductive LoopEnd :=
  | LoopReturn               (* through [return false] *)
  | LoopExit (status : Z).   (* the [while] condition failed *)

  (** The loop; [None] when [fuel] iterations did not suffice. *)
Fixpoint push_loop (fuel : nat) (chunkSize _mode : Z) (this : Deflate)
    : option (LoopEnd * Deflate * list Call) :=
    match fuel with
    | O => None
    | S fuel =>
        match push_body chunkSize _mode this with
        | IterReturn this calls => Some (LoopReturn, this, calls)
        | IterTest false status this calls => Some (LoopExit status, this, calls)
        | IterTest true _ this calls =>
            match push_loop fuel chunkSize _mode this with
            | Some (e, this, calls') => Some (e, this, calls ++ calls')
            | None => None
            end
        end
    end.

  (** The statements of [push] before the loop, for a driver that has not
      ended. *)
Definition bind_input (data : Data) (this : Deflate) : Deflate :=
    let input := convert data in
    let strm := zstream.set_input input (strm this) in
    let strm := zstream.set_next_in 0 strm in
    let strm := zstream.set_avail_in (Z.of_nat (length input)) strm in
    set_strm strm this.

  (** The statements of [push] after the loop. *)
Definition push_end (_mode : Z) (this : Deflate) : bool * Deflate * list Call :=
    (* Finalize on the last chunk. *)
    if _mode =? Z_FINISH then
      let '(status, strm') := zlib_deflate_deflateEnd (strm this) in
      let this := set_strm strm' this in
      let this := onEnd status this in
      let this := set_ended true this in
      (status =? Z_OK, this, [OnEnd status])
    (* callback interim results if Z_SYNC_FLUSH. *)
    else if _mode =? Z_SYNC_FLUSH then
      let this := onEnd Z_OK this in
      let this := set_strm (zstream.set_avail_out 0 (strm this)) this in
      (true, this, [OnEnd Z_OK])
    else (true, this, []).

  (** [push] returns its boolean, the driver as the call leaves it, and the
      handler calls it made. *)
Definition push (fuel : nat) (this : Deflate) (data : Data) (mode : Mode)
    : option (bool * Deflate * list Call) :=
    let chunkSize := opt.chunkSize (options this) in
    if ended this then Some (false, this, [])
    else
      let _mode := flush_mode mode in
      let this := bind_input data this in
      match push_loop fuel chunkSize _mode this with
      | None => None
      | Some (LoopReturn, this, calls) => Some (false, this, calls)
      | Some (LoopExit _, this, calls) =>
          let '(r, this, calls') := push_end _mode this in
          Some (r, this, calls ++ calls')
      end.

  (** *** The one-shot functions

      The caller's options objects live in a heap, so that what
      [deflateRaw] and [gzip] write into the object they are given is
      visible to the caller afterwards. *)
Inductive Completion :=
  | Return (v : option Chunk)
  | Throw (t : Thrown).

  (** [deflate(input, options)]; [None] when the push ran out of fuel. *)
Definition deflate (fuel : nat) (heap : gmap positive arg.Options)
      (input : Data) (options : option positive)
    : gmap positive arg.Options * option Completion :=
    match Deflate_new (options ≫= (heap !!.)) with
    | inl e => (heap, Some (Throw e))
    | inr deflator =>
        match push fuel deflator input (ModeBool true) with
        | None => (heap, None)
        | Some (_, deflator, _) =>
            (* That will never happens, if you don't cheat with options :) *)
            if negb (err deflator =? 0) then
              (heap,
               Some (Throw (ThrowValue
                              (if String.eqb (msg deflator) ""
                               then messages (err deflator)
                               else Some (msg deflator)))))
            else (heap, Some (Return (result deflator)))
        end
    end.

  (** [options = options || {}]: an absent argument is replaced by a new
      empty object. *)
Definition options_or_empty (heap : gmap positive arg.Options)
      (options : option positive) : gmap positive arg.Options * positive :=
    match options with
    | Some l => (heap, l)
    | None => let l := fresh (dom heap) in (<[l := arg.empty]> heap, l)
    end.

  (** [deflateRaw(input, options)] *)
Definition deflateRaw (fuel : nat) (heap : gmap positive arg.Options)
      (input : Data) (options : option positive)
    : gmap positive arg.Options * option Completion :=
    let '(heap, options) := options_or_empty heap options in
    let heap := alter (arg.set_raw true) options heap in
    deflate fuel heap input (Some options).

  (** [gzip(input, options)] *)
Definition gzip (fuel : nat) (heap : gmap positive arg.Options)
      (input : Data) (options : option positive)
    : gmap positive arg.Options * option Completion :=
    let '(heap, options) := options_or_empty heap options in
    let heap := alter (arg.set_gzip true) options heap in
    deflate fuel heap input (Some options).

(** *** Vocabulary for the statements about [push] *)

(** "The output buffer is exactly full, or all input has been consumed and
    the mode is finish or sync-flush." *)
Definition chunk_due (strm : ZStream) (_mode : Z) : Prop :=
  zstream.avail_out strm = 0
  \/ (zstream.avail_in strm = 0 /\ (_mode = Z_FINISH \/ _mode = Z_SYNC_FLUSH)).

(** "Remaining input > 0 or remaining output capacity == 0, and the status is
    not stream end." *)
Definition loop_goes_on (strm : ZStream) (status : Z) : Prop :=
  (zstream.avail_in strm > 0 \/ zstream.avail_out strm = 0)
  /\ status <> Z_STREAM_END.

(** The handler calls of one iteration, and whether the loop goes round
    again after it. *)
Definition iteration_calls (i : Iteration) : list Call :=
  match i with
  | IterReturn _ calls => calls
  | IterTest _ _ _ calls => calls
  end.

Definition iteration_state (i : Iteration) : Deflate :=
  match i with
  | IterReturn this _ => this
  | IterTest _ _ this _ => this
  end.

Definition iteration_continues (i : Iteration) : bool :=
  match i with
  | IterReturn _ _ => false
  | IterTest continue _ _ _ => continue
  end.

(** The driver and the calls made after [n] iterations each of which went
    round the loop again; [None] when the loop was left earlier. *)
Fixpoint rounds (n : nat) (chunkSize _mode : Z) (this : Deflate)
  : option (Deflate * list Call) :=
  match n with
  | O => Some (this, [])
  | S n =>
      match push_body chunkSize _mode this with
      | IterTest true _ this calls =>
          match rounds n chunkSize _mode this with
          | Some (this, calls') => Some (this, calls ++ calls')
          | None => None
          end
      | _ => None
      end
  end.

(** The chunks handed to [onData] in a sequence of calls, and the number of
    [onEnd] calls in it. *)
Fixpoint data_of (calls : list Call) : list Chunk :=
  match calls with
  | [] => []
  | OnData chunk :: calls => chunk :: data_of calls
  | OnEnd _ :: calls => data_of calls
  end.

Fixpoint count_ends (calls : list Call) : nat :=
  match calls with
  | [] => 0
  | OnData _ :: calls => count_ends calls
  | OnEnd _ :: calls => S (count_ends calls)
  end.

(** What an iteration that reaches the loop test preserves. *)
Definition carried (this this' : Deflate) (calls : list Call) : Prop :=
  options this' = options this
  /\ ended this' = ended this
  /\ err this' = err this
  /\ msg this' = msg this
  /\ result this' = result this
  /\ _dict_set this' = _dict_set this
  /\ chunks this' = chunks this ++ data_of calls
  /\ count_ends calls = 0%nat.

End Driver.

(** The in-order concatenation of chunks in the representation that [to]
    selects: string concatenation for ['string'], byte concatenation
    otherwise. *)
Definition concat_chunks (to : string) (chunks : list Chunk) : Chunk :=
  if String.eqb to "string"
  then ChunkString (String.concat "" (map chunk_toString chunks))
  else ChunkBytes (concat (map chunk_bytes chunks)).

(** ** Vocabulary for the byte accounting of the chunk loop *)

(** The bytes a chunk carries. *)
Definition chunk_payload (c : Chunk) : list byte :=
  match c with
  | ChunkBytes b => b
  | ChunkString s => String.list_byte_of_string s
  end.

(** Whether a chunk is a string. *)
Definition is_string (c : Chunk) : bool :=
  match c with
  | ChunkBytes _ => false
  | ChunkString _ => true
  end.

Section Accounting.

Context {EngineState : Type} `{!Imports EngineState}.

(** The output side of a stream is well formed when the cursor and the
    remaining capacity are not negative and add up to the buffer's length. *)
Definition output_wf (strm : zstream.ZStream EngineState) : Prop :=
  0 <= zstream.next_out strm
  /\ 0 <= zstream.avail_out strm
  /\ zstream.next_out strm + zstream.avail_out strm
     = Z.of_nat (length (zstream.output strm)).

(** The filled part of the output buffer. *)
Definition filled (strm : zstream.ZStream EngineState) : list byte :=
  common.shrinkBuf (zstream.output strm) (zstream.next_out strm).

(** The bytes that lie between the output cursor before a step and the
    cursor after it. *)
Definition step_written (before after : zstream.ZStream EngineState) : list byte :=
  skipn (Z.to_nat (zstream.next_out before)) (filled after).

(** What the driver relies on in an engine step for flush mode [_mode] that
    returns ok or stream end on a well-formed stream: the stream stays well
    formed, the buffer keeps its length, the cursor does not move back, the
    bytes below the old cursor are untouched, the remaining input is not
    negative, and stream end is reported only with the input used up. *)
Definition engine_appends (_mode : Z) : Prop :=
  forall strm : zstream.ZStream EngineState,
    output_wf strm ->
    fst (zlib_deflate_deflate strm _mode) = Z_OK
    \/ fst (zlib_deflate_deflate strm _mode) = Z_STREAM_END ->
    output_wf (snd (zlib_deflate_deflate strm _mode))
    /\ length (zstream.output (snd (zlib_deflate_deflate strm _mode)))
       = length (zstream.output strm)
    /\ zstream.next_out strm
       <= zstream.next_out (snd (zlib_deflate_deflate strm _mode))
    /\ firstn (Z.to_nat (zstream.next_out strm))
         (zstream.output (snd (zlib_deflate_deflate strm _mode)))
       = filled strm
    /\ 0 <= zstream.avail_in (snd (zlib_deflate_deflate strm _mode))
    /\ (fst (zlib_deflate_deflate strm _mode) = Z_STREAM_END ->
        zstream.avail_in (snd (zlib_deflate_deflate strm _mode)) = 0).

(** The bytes in the output buffer that an earlier push left there without
    emitting them: none when the buffer is due for replacement. *)
Definition held (this : Deflate) : list byte :=
  if zstream.avail_out (strm this) =? 0 then [] else filled (strm this).

(** The state of the output buffer that the loop can start from: due for
    replacement, or well formed with the configured capacity. *)
Definition buffer_ready (chunkSize : Z) (this : Deflate) : Prop :=
  zstream.avail_out (strm this) = 0
  \/ (output_wf (strm this)
      /\ length (zstream.output (strm this)) = Z.to_nat chunkSize).

(** The bytes the engine writes during the loop, step by step. *)
Fixpoint loop_written (fuel : nat) (chunkSize _mode : Z) (this : Deflate)
  : list byte :=
  match fuel with
  | O => []
  | S fuel =>
      let before := fresh_output chunkSize (strm this) in
      let after := snd (zlib_deflate_deflate before _mode) in
      step_written before after
      ++ match push_body chunkSize _mode this with
         | IterTest true _ this' _ => loop_written fuel chunkSize _mode this'
         | _ => []
         end
  end.

End Accounting.

(** * A small engine to run the driver on

    The driver is parametric in the engine.  To evaluate it on concrete inputs
    we use a stored-block engine that follows zlib's calling protocol: it
    rejects parameters outside zlib's ranges at initialization and a flush
    mode outside 0..5 at each step with a stream error (-2), reports a
    buffer error (-5) when a call can make no progress (no input, nothing
    pending, and a flush mode that is not FINISH and not above the previous
    one), otherwise takes all the input, copies it unchanged to its pending
    queue and writes as much of the queue as the output window holds; with
    FINISH it answers stream end (1) once the queue is empty. *)

Module toy.

Record State := {
  pending : list byte;
  last_flush : Z
}.

Definition fail (code : Z) (message : string) (strm : zstream.ZStream State)
  : Z * zstream.ZStream State :=
  (code, zstream.set_msg message strm).

Definition message_table (code : Z) : option string :=
  if code =? 2 then Some "need dictionary"
  else if code =? 1 then Some "stream end"
  else if code =? 0 then Some ""
  else if code =? -1 then Some "file error"
  else if code =? -2 then Some "stream error"
  else if code =? -3 then Some "data error"
  else if code =? -4 then Some "insufficient memory"
  else if code =? -5 then Some "buffer error"
  else if code =? -6 then Some "incompatible version"
  else None.

Definition deflateInit2 (strm : zstream.ZStream State)
    (level method windowBits memLevel strategy : Z) : Z * zstream.ZStream State :=
  let level := if level =? -1 then 6 else level in
  let windowBits :=
    if windowBits <? 0 then - windowBits          (* suppress zlib wrapper *)
    else if windowBits >? 15 then windowBits - 16 (* write gzip wrapper instead *)
    else windowBits in
  if (memLevel <? 1) || (memLevel >? 9) || negb (method =? 8)
     || (windowBits <? 8) || (windowBits >? 15) || (level <? 0) || (level >? 9)
     || (strategy <? 0) || (strategy >? 4)
  then fail (-2) "stream error" strm
  else (0, zstream.set_state (Some {| pending := []; last_flush := -1 |}) strm).

Definition deflateSetHeader (strm : zstream.ZStream State) (head : types.Header)
  : zstream.ZStream State := strm.

Definition deflateSetDictionary (strm : zstream.ZStream State)
    (dictionary : list byte) : Z * zstream.ZStream State :=
  (0, strm).

Definition deflate (strm : zstream.ZStream State) (flush : Z)
  : Z * zstream.ZStream State :=
  match zstream.state strm with
  | None => fail (-2) "stream error" strm
  | Some s =>
      if (flush >? 5) || (flush <? 0) then fail (-2) "stream error" strm
      else if (zstream.avail_in strm =? 0) && (length (pending s) =? 0)%nat
              && (flush <=? last_flush s) && negb (flush =? 4)
      then fail (-5) "buffer error" strm
      else
        let taken :=
          firstn (Z.to_nat (zstream.avail_in strm))
                 (skipn (Z.to_nat (zstream.next_in strm)) (zstream.input strm)) in
        let queue := pending s ++ taken in
        let n := Nat.min (Z.to_nat (zstream.avail_out strm)) (length queue) in
        let out :=
          common.set (zstream.output strm) (firstn n queue)
                     (Z.to_nat (zstream.next_out strm)) in
        let avail_out := zstream.avail_out strm - Z.of_nat n in
        let rest := skipn n queue in
        let strm' := {|
          zstream.input := zstream.input strm;
          zstream.next_in := zstream.next_in strm + zstream.avail_in strm;
          zstream.avail_in := 0;
          zstream.total_in := zstream.total_in strm + zstream.avail_in strm;
          zstream.output := out;
          zstream.next_out := zstream.next_out strm + Z.of_nat n;
          zstream.avail_out := avail_out;
          zstream.total_out := zstream.total_out strm + Z.of_nat n;
          zstream.msg := zstream.msg strm;
          zstream.state :=
            Some {| pending := rest;
                    last_flush := if avail_out =? 0 then -1 else flush |};
          zstream.data_type := zstream.data_type strm;
          zstream.adler := zstream.adler strm |} in
        (if (flush =? 4) && (length rest =? 0)%nat then 1 else 0, strm')
  end.

Definition deflateEnd (strm : zstream.ZStream State) : Z * zstream.ZStream State :=
  match zstream.state strm with
  | None => fail (-2) "stream error" strm
  | Some _ => (0, zstream.set_state None strm)
  end.

Definition string2buf (s : string) : list byte := String.list_byte_of_string s.

#[global] Instance imports : Imports State := {|
  zlib_deflate_deflateInit2 := deflateInit2;
  zlib_deflate_deflateSetHeader := deflateSetHeader;
  zlib_deflate_deflateSetDictionary := deflateSetDictionary;
  zlib_deflate_deflate := deflate;
  zlib_deflate_deflateEnd := deflateEnd;
  strings_string2buf := string2buf;
  messages := message_table
|}.

(** [new Deflate(options)] for options the engine accepts. *)
Definition new (options : option arg.Options) : Deflate :=
  match Deflate_new options with
  | inr this => this
  | inl _ => {| options := Deflate_options options; err := 0; msg := "";
                ended := false; chunks := []; strm := zstream.new;
                result := None; _dict_set := false |}
  end.

(** The state a driver is in after one more [push]. *)
Definition after (this : Deflate) (data : Data) (mode : Mode) : Deflate :=
  match push 100 this data mode with
  | Some (_, this', _) => this'
  | None => this
  end.

Definition chunk4 : option arg.Options :=
  Some {| arg.level := None; arg.method := None; arg.chunkSize := Some 4;
          arg.windowBits := None; arg.memLevel := None; arg.strategy := None;
          arg.to := None; arg.raw := None; arg.gzip := None;
          arg.header := None; arg.dictionary := None |}.

Definition abc : Data := DataBytes [x61; x62; x63].
Definition hello : Data := DataString "hello, world".
Definition nothing : Data := DataBytes [].

(** Options objects for the three framings, with [windowBits: 15]. *)
Definition raw15 : arg.Options :=
  {| arg.level := None; arg.method := None; arg.chunkSize := None;
     arg.windowBits := Some 15; arg.memLevel := None; arg.strategy := None;
     arg.to := None; arg.raw := Some true; arg.gzip := None;
     arg.header := None; arg.dictionary := None |}.
Definition gzip15 : arg.Options :=
  {| arg.level := None; arg.method := None; arg.chunkSize := None;
     arg.windowBits := Some 15; arg.memLevel := None; arg.strategy := None;
     arg.to := None; arg.raw := None; arg.gzip := Some true;
     arg.header := None; arg.dictionary := None |}.
Definition plain15 : arg.Options :=
  {| arg.level := None; arg.method := None; arg.chunkSize := None;
     arg.windowBits := Some 15; arg.memLevel := None; arg.strategy := None;
     arg.to := None; arg.raw := None; arg.gzip := None;
     arg.header := None; arg.dictionary := None |}.
Definition to_string4 : option arg.Options :=
  Some {| arg.level := None; arg.method := None; arg.chunkSize := Some 4;
          arg.windowBits := None; arg.memLevel := None; arg.strategy := None;
          arg.to := Some "string"; arg.raw := None; arg.gzip := None;
          arg.header := None; arg.dictionary := None |}.

(** A driver with chunks of four bytes that has just been given
    ["hello, world"] with an invalid flush mode, at the top of the loop. *)
Definition bound_hello : Deflate := bind_input hello (new chunk4).

(** A driver that was flushed once and is given an empty input with
    Z_SYNC_FLUSH again, at the top of the loop. *)
Definition flushed_again : Deflate :=
  bind_input nothing (after (new chunk4) hello (ModeNumber Z_SYNC_FLUSH)).

(** A driver after a finishing push. *)
Definition finished : Deflate := after (new None) abc (ModeBool true).

(** The driver as the chunk loop of a push leaves it. *)
Definition after_loop (this : Deflate) (data : Data) (mode : Mode) : Deflate :=
  match push_loop 100 (opt.chunkSize (options this)) (flush_mode mode)
          (bind_input data this) with
  | Some (_, this', _) => this'
  | None => this
  end.

(** The three chunks of four bytes that make up ["hello, world"]. *)
Definition hello_calls : list Call :=
  [ OnData (ChunkBytes [x68; x65; x6c; x6c]);
    OnData (ChunkBytes [x6f; x2c; x20; x77]);
    OnData (ChunkBytes [x6f; x72; x6c; x64]) ].

(** A heap holding one caller's options object. *)
Definition heap1 : gmap positive arg.Options := <[3%positive := plain15]> ∅.


(** Options with an empty-string dictionary, and with a one-byte one. *)
Definition dictionary_empty_string : arg.Options :=
  {| arg.level := None; arg.method := None; arg.chunkSize := None;
     arg.windowBits := None; arg.memLevel := None; arg.strategy := None;
     arg.to := None; arg.raw := None; arg.gzip := None;
     arg.header := None; arg.dictionary := Some (DataString "") |}.
Definition dictionary_a : arg.Options :=
  {| arg.level := None; arg.method := None; arg.chunkSize := None;
     arg.windowBits := None; arg.memLevel := None; arg.strategy := None;
     arg.to := None; arg.raw := None; arg.gzip := None;
     arg.header := None; arg.dictionary := Some (DataBytes [x61]) |}.

(** A driver with chunks of four bytes that was given ["abc"] without a
    flush: the three bytes sit in its output buffer. *)
Definition holding_abc : Deflate := after (new chunk4) abc (ModeBool false).

(** The four chunks that a finishing push of ["hello, world"] then emits. *)
Definition abc_hello_calls : list Call :=
  [ OnData (ChunkBytes [x61; x62; x63; x68]);
    OnData (ChunkBytes [x65; x6c; x6c; x6f]);
    OnData (ChunkBytes [x2c; x20; x77; x6f]);
    OnData (ChunkBytes [x72; x6c; x64]);
    OnEnd 0 ].


End toy.
(** * Properties of the constants and of [flattenChunks] *)

Lemma set_at_end (pre chunk : list byte) (m : nat) :
  common.set (pre ++ repeat x00 (length chunk + m)) chunk (length pre)
  = (pre ++ chunk) ++ repeat x00 m.
Proof.
  unfold common.set.
  rewrite firstn_app, firstn_all, Nat.sub_diag, firstn_O, app_nil_r.
  rewrite skipn_app, skipn_all2 by lia.
  replace (length pre + length chunk - length pre)%nat with (length chunk) by lia.
  rewrite repeat_app, skipn_app, repeat_length, skipn_all2
    by (rewrite repeat_length; lia).
  rewrite Nat.sub_diag, skipn_O. cbn [app]. now rewrite <- app_assoc.
Qed.

Lemma flattenChunks_len_from (chunks : list (list byte)) (n : nat) :
  fold_left (fun len chunk => (len + length chunk)%nat) chunks n
  = (n + length (concat chunks))%nat.
Proof.
  revert n. induction chunks as [|c cs IH]; intros n; cbn [fold_left concat].
  - cbn. lia.
  - rewrite IH, length_app. lia.
Qed.

Lemma flattenChunks_join_from (chunks : list (list byte)) (pre : list byte) :
  fold_left
    (fun '(result, pos) chunk =>
       (common.set result chunk pos, (pos + length chunk)%nat))
    chunks (pre ++ repeat x00 (length (concat chunks)), length pre)
  = (pre ++ concat chunks, length (pre ++ concat chunks)).
Proof.
  revert pre. induction chunks as [|c cs IH]; intros pre; cbn [fold_left concat].
  - cbn. now rewrite !app_nil_r.
  - rewrite length_app, set_at_end.
    rewrite <- (length_app pre c), IH. now rewrite <- app_assoc.
Qed.

(** [flattenChunks] is the in-order concatenation of the chunks. *)
Lemma flattenChunks_concat (chunks : list (list byte)) :
  common.flattenChunks chunks = concat chunks.
Proof.
  unfold common.flattenChunks.
  rewrite flattenChunks_len_from. cbn [Nat.add].
  pose proof (flattenChunks_join_from chunks []) as H.
  cbn [app length] in H. now rewrite H.
Qed.

(** * The status codes of [lib/zlib/constants.js] *)

(** C8.  The module exports 0 for ok and 1 for stream end, but its error codes
    are not all distinct from these: [Z_ERRNO] is exported as 1, the value of
    [Z_STREAM_END], and [Z_STREAM_ERROR] as 2, the value of [Z_NEED_DICT],
    while [constants.d.ts] declares them as -1 and -2.  Only
    [Z_VERSION_ERROR] kept its sign.  With the declared values every error
    code is distinct from ok and stream end. *)
Theorem exported_error_codes_collide :
  constants.Z_OK = 0 /\ constants.Z_STREAM_END = 1
  /\ constants.Z_ERRNO = constants.Z_STREAM_END
  /\ is_error_code constants.Z_ERRNO = false
  /\ constants.Z_STREAM_ERROR = constants.Z_NEED_DICT
  /\ map snd constants.error_codes = [1; 2; 3; 4; 5; -6]
  /\ map snd constants_d_ts.error_codes = [-1; -2; -3; -5]
  /\ forallb is_error_code (map snd constants_d_ts.error_codes) = true
  /\ forallb is_error_code (map snd constants.error_codes) = false.
Proof. repeat split. Qed.

(** * The constructor's option handling *)

Lemma assign_defaults_empty : assign defaults arg.empty = defaults.
Proof. reflexivity. Qed.

Lemma adjust_windowBits_others (o : opt.Options) :
  let o' := adjust_windowBits o in
  opt.level o' = opt.level o /\ opt.method o' = opt.method o
  /\ opt.chunkSize o' = opt.chunkSize o /\ opt.memLevel o' = opt.memLevel o
  /\ opt.strategy o' = opt.strategy o /\ opt.to o' = opt.to o
  /\ opt.raw o' = opt.raw o /\ opt.gzip o' = opt.gzip o
  /\ opt.header o' = opt.header o /\ opt.dictionary o' = opt.dictionary o.
Proof.
  unfold adjust_windowBits.
  destruct (truthy (opt.raw o) && (opt.windowBits o >? 0)); [cbn; tauto|].
  destruct (truthy (opt.gzip o) && (opt.windowBits o >? 0)
            && (opt.windowBits o <? 16)); cbn; tauto.
Qed.


(** * The driver *)

Section DriverProperties.

Context {EngineState : Type} `{!Imports EngineState}.

Local Abbreviation ZStream := (zstream.ZStream EngineState).
Local Abbreviation Deflate := (@Deflate EngineState).

(** ** The default handlers *)

Lemma onEnd_fields (status : Z) (this : Deflate) :
  options (onEnd status this) = options this
  /\ ended (onEnd status this) = ended this
  /\ strm (onEnd status this) = strm this
  /\ _dict_set (onEnd status this) = _dict_set this
  /\ chunks (onEnd status this) = []
  /\ err (onEnd status this) = status
  /\ msg (onEnd status this) = zstream.msg (strm this).
Proof.
  unfold onEnd.
  destruct (status =? Z_OK); [destruct (String.eqb _ _)|]; cbn; tauto.
Qed.

Lemma onEnd_result (status : Z) (this : Deflate) :
  result (onEnd status this)
  = if status =? Z_OK
    then Some (concat_chunks (opt.to (options this)) (chunks this))
    else result this.
Proof.
  unfold onEnd, concat_chunks.
  destruct (status =? Z_OK); [|reflexivity].
  destruct (String.eqb _ _); cbn; [reflexivity|].
  now rewrite flattenChunks_concat.
Qed.

(** ** One iteration of the chunk loop *)

Lemma emits_spec (strm : ZStream) (_mode : Z) :
  emits strm _mode = true <-> chunk_due strm _mode.
Proof.
  unfold emits, chunk_due.
  rewrite orb_true_iff, andb_true_iff, orb_true_iff, !Z.eqb_eq. tauto.
Qed.

Lemma continues_spec (strm : ZStream) (status : Z) :
  continues strm status = true <-> loop_goes_on strm status.
Proof.
  unfold continues, loop_goes_on.
  rewrite andb_true_iff, orb_true_iff, negb_true_iff, Z.eqb_eq, Z.eqb_neq.
  rewrite Z.gtb_ltb, Z.ltb_lt. intuition lia.
Qed.

Lemma fresh_output_spec (chunkSize : Z) (strm : ZStream) :
  (zstream.avail_out strm = 0 ->
     zstream.output (fresh_output chunkSize strm) = common.Buf8 chunkSize
     /\ zstream.next_out (fresh_output chunkSize strm) = 0
     /\ zstream.avail_out (fresh_output chunkSize strm) = chunkSize)
  /\ (zstream.avail_out strm <> 0 -> fresh_output chunkSize strm = strm).
Proof.
  unfold fresh_output. split; intros H0.
  - rewrite H0. cbn. tauto.
  - apply Z.eqb_neq in H0. now rewrite H0.
Qed.

(** The three ways through the loop body. *)
Lemma push_body_cases (chunkSize _mode : Z) (this : Deflate) :
  let step := zlib_deflate_deflate (fresh_output chunkSize (strm this)) _mode in
  let status := fst step in
  let this' := set_strm (snd step) this in
  let chunk := emitted_chunk (opt.to (options this)) (snd step) in
  (status <> Z_STREAM_END /\ status <> Z_OK
     /\ push_body chunkSize _mode this
        = IterReturn (set_ended true (onEnd status this')) [OnEnd status])
  \/ ((status = Z_STREAM_END \/ status = Z_OK) /\ chunk_due (snd step) _mode
      /\ push_body chunkSize _mode this
         = IterTest (continues (snd step) status) status (onData chunk this')
             [OnData chunk])
  \/ ((status = Z_STREAM_END \/ status = Z_OK) /\ ~ chunk_due (snd step) _mode
      /\ push_body chunkSize _mode this
         = IterTest (continues (snd step) status) status this' []).
Proof.
  intros step status this' chunk. unfold push_body.
  cbn [strm set_strm]. fold step.
  destruct step as [st s'] eqn:Estep. cbn [fst snd] in *.
  subst status. cbn [strm set_strm options].
  destruct (st =? Z_STREAM_END) eqn:E1; destruct (st =? Z_OK) eqn:E2;
    cbn [negb andb];
    rewrite ?Z.eqb_eq, ?Z.eqb_neq in *.
  4: { left. tauto. }
  all: right; destruct (emits s' _mode) eqn:Ee;
    [ left; apply emits_spec in Ee
    | right; assert (~ chunk_due s' _mode)
        by (rewrite <- emits_spec; congruence) ];
    (split; [tauto|]); (split; [assumption|]); reflexivity.
Qed.

(** C1 (amended).  In every iteration of the chunk loop: when the remaining
    output capacity is 0 a fresh buffer of [chunkSize] bytes is installed with
    output cursor 0 and remaining capacity [chunkSize] (and the stream is left
    alone otherwise).  After an engine step that returns ok or stream end, the
    filled part of the output buffer, as a binary string when [to] is
    ['string'], is handed to [onData] as one chunk exactly when the buffer is
    full or the input is used up in finish or sync-flush mode, and the loop
    goes round again exactly while (remaining input > 0 or remaining capacity
    = 0) and the status is not stream end.  After a step that returns any
    other status nothing is emitted and [push] is left at once through the
    error path. *)
Theorem push_iteration (fuel : nat) (chunkSize _mode : Z) (this : Deflate) :
  let strm1 := fresh_output chunkSize (strm this) in
  let status := fst (zlib_deflate_deflate strm1 _mode) in
  let strm2 := snd (zlib_deflate_deflate strm1 _mode) in
  let this2 := set_strm strm2 this in
  let filled := common.shrinkBuf (zstream.output strm2) (zstream.next_out strm2) in
  let chunk :=
    if String.eqb (opt.to (options this)) "string"
    then ChunkString (buf2binstring filled) else ChunkBytes filled in
  let it := push_body chunkSize _mode this in
  (zstream.avail_out (strm this) = 0 ->
     zstream.output strm1 = common.Buf8 chunkSize
     /\ length (zstream.output strm1) = Z.to_nat chunkSize
     /\ zstream.next_out strm1 = 0
     /\ zstream.avail_out strm1 = chunkSize)
  /\ (zstream.avail_out (strm this) <> 0 -> strm1 = strm this)
  /\ (status = Z_OK \/ status = Z_STREAM_END ->
        (chunk_due strm2 _mode ->
           iteration_calls it = [OnData chunk]
           /\ iteration_state it = onData chunk this2)
        /\ (~ chunk_due strm2 _mode ->
              iteration_calls it = [] /\ iteration_state it = this2)
        /\ (iteration_continues it = true <-> loop_goes_on strm2 status)
        /\ (loop_goes_on strm2 status ->
              push_loop (S fuel) chunkSize _mode this
              = match push_loop fuel chunkSize _mode (iteration_state it) with
                | Some (e, this', calls) =>
                    Some (e, this', iteration_calls it ++ calls)
                | None => None
                end)
        /\ (~ loop_goes_on strm2 status ->
              push_loop (S fuel) chunkSize _mode this
              = Some (LoopExit status, iteration_state it, iteration_calls it)))
  /\ (status <> Z_OK -> status <> Z_STREAM_END ->
        it = IterReturn (set_ended true (onEnd status this2)) [OnEnd status]
        /\ push_loop (S fuel) chunkSize _mode this
           = Some (LoopReturn, set_ended true (onEnd status this2),
                   [OnEnd status])).
Proof.
  intros strm1 status strm2 this2 filled chunk it.
  destruct (fresh_output_spec chunkSize (strm this)) as [Ha Hb].
  split; [|split; [exact Hb|]].
  { intros H0. destruct (Ha H0) as (H1 & H2 & H3). fold strm1 in H1, H2, H3.
    repeat split; try assumption.
    rewrite H1. unfold common.Buf8. apply repeat_length. }
  assert (Hchunk : emitted_chunk (opt.to (options this)) strm2 = chunk)
    by reflexivity.
  pose proof (push_body_cases chunkSize _mode this) as Hc.
  cbv zeta in Hc. fold strm1 in Hc. fold status in Hc. fold strm2 in Hc.
  fold this2 in Hc. rewrite Hchunk in Hc. fold it in Hc.
  assert (Hloop : forall c st t cs, it = IterTest c st t cs ->
            push_loop (S fuel) chunkSize _mode this
            = if c then
                match push_loop fuel chunkSize _mode t with
                | Some (e, this', calls) => Some (e, this', cs ++ calls)
                | None => None
                end
              else Some (LoopExit st, t, cs)).
  { intros c st t cs Hit. cbn [push_loop]. fold it. rewrite Hit.
    destruct c; reflexivity. }
  pose proof (continues_spec strm2 status) as Hcont.
  split.
  - intros Hok.
    destruct Hc as [(H1 & H2 & _)|[(_ & Hdue & Hit)|(_ & Hdue & Hit)]];
      [destruct Hok; contradiction| |];
      pose proof (Hloop _ _ _ _ Hit) as HL; rewrite Hit; cbn;
      (split; [intros; tauto|]); (split; [intros; tauto|]);
      (split; [exact Hcont|]);
      destruct (continues strm2 status) eqn:Ec;
      (split; [intros Hg|intros Hg]);
      solve [ exact HL
            | exfalso; apply Hg; apply Hcont; reflexivity
            | exfalso; apply Hcont in Hg; discriminate ].
  - intros H1 H2.
    destruct Hc as [(_ & _ & Hit)|[([?|?] & _)|([?|?] & _)]]; try contradiction.
    split; [exact Hit|]. cbn [push_loop]. fold it. now rewrite Hit.
Qed.

(** ** The loop as a whole *)

Lemma data_of_app (a b : list Call) : data_of (a ++ b) = data_of a ++ data_of b.
Proof.
  induction a as [|[c|s] a IH]; cbn; [reflexivity| |assumption].
  now rewrite IH.
Qed.

Lemma count_ends_app (a b : list Call) :
  count_ends (a ++ b) = (count_ends a + count_ends b)%nat.
Proof.
  induction a as [|[c|s] a IH]; cbn; [reflexivity|assumption|].
  now rewrite IH.
Qed.

Lemma carried_refl (this : Deflate) : carried this this [].
Proof. unfold carried. cbn. rewrite app_nil_r. tauto. Qed.

Lemma carried_trans (a b c : Deflate) (k l : list Call) :
  carried a b k -> carried b c l -> carried a c (k ++ l).
Proof.
  unfold carried. intros (A1 & A2 & A3 & A4 & A5 & A6 & A7 & A8)
    (B1 & B2 & B3 & B4 & B5 & B6 & B7 & B8).
  rewrite data_of_app, count_ends_app, app_assoc, <- A7, A8, B8.
  repeat split; congruence.
Qed.

Lemma push_body_test (chunkSize _mode : Z) (this this' : Deflate)
    (c : bool) (status : Z) (calls : list Call) :
  push_body chunkSize _mode this = IterTest c status this' calls ->
  carried this this' calls.
Proof.
  intros Hit.
  destruct (push_body_cases chunkSize _mode this)
    as [(_ & _ & H)|[(_ & _ & H)|(_ & _ & H)]];
    rewrite H in Hit; inversion Hit; subst; clear Hit.
  - unfold carried. cbn. tauto.
  - unfold carried. cbn. rewrite app_nil_r. tauto.
Qed.

Lemma rounds_carried (n : nat) (chunkSize _mode : Z) (this this' : Deflate)
    (calls : list Call) :
  rounds n chunkSize _mode this = Some (this', calls) ->
  carried this this' calls.
Proof.
  revert this this' calls.
  induction n as [|n IH]; intros this this' calls; cbn [rounds].
  - intros [= <- <-]. apply carried_refl.
  - destruct (push_body chunkSize _mode this) as [|[|] st t cs] eqn:Eb;
      try discriminate.
    destruct (rounds n chunkSize _mode t) as [[t' cs']|] eqn:Er;
      try discriminate.
    intros [= <- <-].
    eapply carried_trans; [eapply push_body_test; eassumption|].
    now apply IH.
Qed.

(** After [n] rounds the loop behaves as a loop started in the state reached. *)
Lemma push_loop_rounds (n fuel : nat) (chunkSize _mode : Z)
    (this this' : Deflate) (calls : list Call) :
  rounds n chunkSize _mode this = Some (this', calls) ->
  push_loop (n + fuel) chunkSize _mode this
  = match push_loop fuel chunkSize _mode this' with
    | Some (e, t, calls') => Some (e, t, calls ++ calls')
    | None => None
    end.
Proof.
  revert this this' calls.
  induction n as [|n IH]; intros this this' calls; cbn [rounds].
  - intros [= <- <-]. cbn [Nat.add app].
    destruct (push_loop fuel chunkSize _mode this) as [[[e t] cs]|]; reflexivity.
  - destruct (push_body chunkSize _mode this) as [|[|] st t cs] eqn:Eb;
      try discriminate.
    destruct (rounds n chunkSize _mode t) as [[t' cs']|] eqn:Er;
      try discriminate.
    intros [= <- <-]. cbn [Nat.add push_loop]. rewrite Eb.
    rewrite (IH _ _ _ Er).
    destruct (push_loop fuel chunkSize _mode t') as [[[e u] cs'']|];
      [now rewrite app_assoc | reflexivity].
Qed.

(** A loop that ends has gone through some rounds and one last iteration. *)
Lemma push_loop_ends (fuel : nat) (chunkSize _mode : Z) (this this' : Deflate)
    (e : LoopEnd) (calls : list Call) :
  push_loop fuel chunkSize _mode this = Some (e, this', calls) ->
  exists (n : nat) (last : Deflate) (before after : list Call),
    (n < fuel)%nat
    /\ rounds n chunkSize _mode this = Some (last, before)
    /\ calls = before ++ after
    /\ match e with
       | LoopReturn => push_body chunkSize _mode last = IterReturn this' after
       | LoopExit status =>
           push_body chunkSize _mode last = IterTest false status this' after
       end.
Proof.
  revert this this' e calls.
  induction fuel as [|fuel IH]; intros this this' e calls; cbn [push_loop];
    [discriminate|].
  destruct (push_body chunkSize _mode this) as [t cs|[|] st t cs] eqn:Eb.
  - intros [= <- <- <-]. exists 0%nat, this, [], cs.
    repeat split; [lia | assumption].
  - destruct (push_loop fuel chunkSize _mode t) as [[[e' t'] cs']|] eqn:El;
      try discriminate.
    intros [= <- <- <-].
    destruct (IH _ _ _ _ El) as (n & last & before & after & Hn & Hr & Hc & He).
    exists (S n), last, (cs ++ before), after.
    split; [lia|]. split; [cbn [rounds]; now rewrite Eb, Hr|].
    split; [now rewrite Hc, app_assoc | assumption].
  - intros [= <- <- <-]. exists 0%nat, this, [], cs.
    repeat split; [lia | assumption].
Qed.

(** More fuel does not change the outcome of a loop that ends. *)
Lemma push_loop_mono (fuel k : nat) (chunkSize _mode : Z) (this : Deflate)
    (r : LoopEnd * Deflate * list Call) :
  push_loop fuel chunkSize _mode this = Some r ->
  push_loop (fuel + k) chunkSize _mode this = Some r.
Proof.
  revert this r. induction fuel as [|fuel IH]; intros this r; cbn [push_loop Nat.add];
    [discriminate|].
  destruct (push_body chunkSize _mode this) as [t cs|[|] st t cs]; try tauto.
  destruct (push_loop fuel chunkSize _mode t) as [r'|] eqn:El; try discriminate.
  now rewrite (IH _ _ El).
Qed.

Lemma push_loop_exit_carried (fuel : nat) (chunkSize _mode : Z)
    (this this' : Deflate) (status : Z) (calls : list Call) :
  push_loop fuel chunkSize _mode this = Some (LoopExit status, this', calls) ->
  carried this this' calls.
Proof.
  intros H. apply push_loop_ends in H.
  destruct H as (n & last & before & after & _ & Hr & -> & Hb).
  eapply carried_trans; [eapply rounds_carried|eapply push_body_test]; eassumption.
Qed.

Lemma bind_input_fields (data : Data) (this : Deflate) :
  options (bind_input data this) = options this
  /\ ended (bind_input data this) = ended this
  /\ err (bind_input data this) = err this
  /\ msg (bind_input data this) = msg this
  /\ result (bind_input data this) = result this
  /\ chunks (bind_input data this) = chunks this
  /\ zstream.input (strm (bind_input data this)) = convert data
  /\ zstream.next_in (strm (bind_input data this)) = 0
  /\ zstream.avail_in (strm (bind_input data this))
     = Z.of_nat (length (convert data)).
Proof. cbn. tauto. Qed.

(** More fuel does not change the outcome of a [push] that returns. *)
Lemma push_mono (fuel k : nat) (this : Deflate) (data : Data) (mode : Mode)
    (r : bool * Deflate * list Call) :
  push fuel this data mode = Some r ->
  push (fuel + k) this data mode = Some r.
Proof.
  unfold push. destruct (ended this); [tauto|].
  destruct (push_loop fuel _ _ _) as [r'|] eqn:El; [|discriminate].
  now rewrite (push_loop_mono _ k _ _ _ _ El).
Qed.

(** ** After the loop *)

(** C2.  When the chunk loop of a [push] on a driver that has not ended is
    left through its [while] test (no engine error), the loop itself has made
    no [onEnd] call, and:
    - in finish mode the engine is finalized with [deflateEnd], [onEnd] is
      called once with the status it returned, the driver is marked ended and
      [push] returns whether that status is Z_OK;
    - in sync-flush mode [onEnd] is called once with Z_OK, the engine is not
      finalized, the remaining output capacity is reset to 0, so that the next
      push starts with a fresh buffer, the driver is not ended and [push]
      returns true;
    - in any other mode [push] returns true and makes no [onEnd] call. *)
Theorem push_after_loop (fuel : nat) (this : Deflate) (data : Data) (mode : Mode)
    (status : Z) (this1 : Deflate) (calls : list Call) :
  ended this = false ->
  push_loop fuel (opt.chunkSize (options this)) (flush_mode mode)
    (bind_input data this) = Some (LoopExit status, this1, calls) ->
  let _mode := flush_mode mode in
  let fin := zlib_deflate_deflateEnd (strm this1) in
  let finished := set_ended true (onEnd (fst fin) (set_strm (snd fin) this1)) in
  let flushed :=
    set_strm (zstream.set_avail_out 0 (strm this1)) (onEnd Z_OK this1) in
  count_ends calls = 0%nat
  /\ (_mode = Z_FINISH ->
        push fuel this data mode
        = Some (fst fin =? Z_OK, finished, calls ++ [OnEnd (fst fin)])
        /\ count_ends (calls ++ [OnEnd (fst fin)]) = 1%nat
        /\ strm finished = snd fin
        /\ err finished = fst fin
        /\ ended finished = true
        /\ ((fst fin =? Z_OK) = true <-> fst fin = Z_OK))
  /\ (_mode = Z_SYNC_FLUSH ->
        push fuel this data mode
        = Some (true, flushed, calls ++ [OnEnd Z_OK])
        /\ count_ends (calls ++ [OnEnd Z_OK]) = 1%nat
        /\ zstream.avail_out (strm flushed) = 0
        /\ zstream.state (strm flushed) = zstream.state (strm this1)
        /\ err flushed = Z_OK
        /\ ended flushed = false
        /\ forall data',
             zstream.avail_out
               (fresh_output (opt.chunkSize (options this))
                  (strm (bind_input data' flushed)))
             = opt.chunkSize (options this)
             /\ zstream.next_out
                  (fresh_output (opt.chunkSize (options this))
                     (strm (bind_input data' flushed))) = 0
             /\ zstream.output
                  (fresh_output (opt.chunkSize (options this))
                     (strm (bind_input data' flushed)))
                = common.Buf8 (opt.chunkSize (options this)))
  /\ (_mode <> Z_FINISH -> _mode <> Z_SYNC_FLUSH ->
        push fuel this data mode = Some (true, this1, calls)
        /\ ended this1 = false).
Proof.
  intros Hend Hloop _mode fin finished flushed.
  pose proof (push_loop_exit_carried _ _ _ _ _ _ _ Hloop)
    as (Ho & He & _ & _ & _ & _ & _ & Hcount).
  destruct (bind_input_fields data this) as (_ & He' & _).
  rewrite He' in He. rewrite Hend in He.
  split; [exact Hcount|].
  assert (Hpush : push fuel this data mode
                  = let '(r, t, calls') := push_end _mode this1 in
                    Some (r, t, calls ++ calls')).
  { unfold push. rewrite Hend. cbv zeta. now rewrite Hloop. }
  split; [|split].
  - intros Hm. rewrite Hpush. unfold push_end. rewrite Hm. cbn [Z.eqb Z_FINISH Pos.eqb].
    fold fin. destruct fin as [st s'] eqn:Ef. cbn [fst snd] in *.
    split; [reflexivity|].
    split; [rewrite count_ends_app, Hcount; reflexivity|].
    destruct (onEnd_fields st (set_strm s' this1)) as (_ & _ & Hs & _ & _ & Her & _).
    subst finished. cbn [strm err ended set_ended].
    rewrite Hs, Her. cbn. repeat split; try reflexivity; apply Z.eqb_eq.
  - intros Hm. rewrite Hpush. unfold push_end. rewrite Hm.
    cbn [Z.eqb Z_FINISH Z_SYNC_FLUSH Pos.eqb].
    destruct (onEnd_fields Z_OK this1) as (_ & Hen & Hs & _ & _ & Her & _).
    rewrite Hs.
    split; [reflexivity|].
    split; [rewrite count_ends_app, Hcount; reflexivity|].
    subst flushed. cbn [strm err ended set_strm].
    rewrite Her, Hen, He.
    repeat split; try reflexivity.
  - intros H1 H2. rewrite Hpush. unfold push_end.
    apply Z.eqb_neq in H1, H2. rewrite H1, H2.
    split; [now rewrite app_nil_r | exact He].
Qed.

(** ** A driver that has ended *)

(** C4.  On a driver that has ended, [push] returns false for every data and
    mode, whatever the fuel, leaves the driver (its stream included) exactly
    as it was, and calls neither [onData] nor [onEnd]. *)
Theorem push_after_end (fuel : nat) (this : Deflate) (data : Data) (mode : Mode) :
  ended this = true ->
  push fuel this data mode = Some (false, this, []).
Proof. intros H. unfold push. now rewrite H. Qed.

(** ** The error path *)

(** C3.  Let a [push] on a driver that has not ended go [n] times round the
    loop, making the calls [calls], and let the engine step of the next
    iteration return a status that is neither ok nor stream end.  Then, with
    fuel for that iteration, [push] returns false; its calls are [calls], all
    of them [onData] calls, followed by a single [onEnd] with that status;
    the driver's [err] is that status and its [msg] the message the engine
    left in the stream; the driver has ended, and every later [push] returns
    false and changes nothing. *)
Theorem push_engine_error (n fuel : nat) (this : Deflate) (data : Data)
    (mode : Mode) (last : Deflate) (calls : list Call) :
  let chunkSize := opt.chunkSize (options this) in
  let _mode := flush_mode mode in
  let step := zlib_deflate_deflate (fresh_output chunkSize (strm last)) _mode in
  let status := fst step in
  ended this = false ->
  rounds n chunkSize _mode (bind_input data this) = Some (last, calls) ->
  status <> Z_OK ->
  status <> Z_STREAM_END ->
  (n < fuel)%nat ->
  exists this' : Deflate,
    push fuel this data mode = Some (false, this', calls ++ [OnEnd status])
    /\ count_ends (calls ++ [OnEnd status]) = 1%nat
    /\ err this' = status
    /\ msg this' = zstream.msg (snd step)
    /\ strm this' = snd step
    /\ chunks this' = []
    /\ ended this' = true
    /\ forall fuel' data' mode',
         push fuel' this' data' mode' = Some (false, this', []).
Proof.
  intros chunkSize _mode step status Hend Hr H1 H2 Hn.
  pose proof (rounds_carried _ _ _ _ _ _ Hr) as (_ & _ & _ & _ & _ & _ & _ & Hcount).
  pose (this' := set_ended true (onEnd status (set_strm (snd step) last))).
  assert (Hbody : push_body chunkSize _mode last = IterReturn this' [OnEnd status]).
  { destruct (push_body_cases chunkSize _mode last)
      as [(_ & _ & H)|[([?|?] & _)|([?|?] & _)]];
      solve [exact H | contradiction]. }
  exists this'.
  assert (Hended : ended this' = true) by reflexivity.
  split.
  - unfold push. rewrite Hend. cbv zeta. fold chunkSize. fold _mode.
    replace fuel with (n + S (fuel - S n))%nat by lia.
    rewrite (push_loop_rounds _ _ _ _ _ _ _ Hr).
    cbn [push_loop]. now rewrite Hbody.
  - destruct (onEnd_fields status (set_strm (snd step) last))
      as (_ & _ & Hs & _ & Hch & Her & Hmsg).
    split; [rewrite count_ends_app, Hcount; reflexivity|].
    subst this'. cbn [err msg strm chunks ended set_ended] in *.
    rewrite Her, Hmsg, Hs, Hch. cbn [strm set_strm].
    repeat split.
Qed.

(** ** The default handlers as an aggregator *)

Lemma onData_sequence (emitted : list Chunk) (this : Deflate) :
  let collected := fold_left (fun d chunk => onData chunk d) emitted this in
  chunks collected = chunks this ++ emitted
  /\ options collected = options this /\ err collected = err this
  /\ msg collected = msg this /\ ended collected = ended this
  /\ strm collected = strm this /\ result collected = result this.
Proof.
  revert this. induction emitted as [|c cs IH]; intros this; cbn [fold_left].
  - cbn. rewrite app_nil_r. tauto.
  - destruct (IH (onData c this)) as (H1 & H2 & H3 & H4 & H5 & H6 & H7).
    cbv zeta. rewrite H1, H2, H3, H4, H5, H6, H7. cbn.
    rewrite <- app_assoc. tauto.
Qed.

Lemma map_chunk_toString (ss : list string) :
  map chunk_toString (map ChunkString ss) = ss.
Proof. induction ss as [|s ss IH]; cbn; [reflexivity | now rewrite IH]. Qed.

Lemma map_chunk_bytes (bs : list (list byte)) :
  map chunk_bytes (map ChunkBytes bs) = bs.
Proof. induction bs as [|b bs IH]; cbn; [reflexivity | now rewrite IH]. Qed.

(** C6.  The default [onData] appends each chunk to [chunks], in the order of
    the calls, and touches nothing else.  The default [onEnd], for every
    status: when the status is Z_OK it sets [result] to the in-order
    concatenation of the pending chunks ([flattenChunks], the concatenation of
    the byte arrays, for binary output; the concatenation of the strings when
    [to] is ['string']), and for any other status it does not assign [result]
    (in particular [result] stays unset if it was); in all cases it empties
    [chunks], stores the status in [err] and copies the stream's message into
    [msg]. *)
Theorem default_handlers (this : Deflate) (emitted : list Chunk) (status : Z) :
  let collected := fold_left (fun d chunk => onData chunk d) emitted this in
  let closed := onEnd status collected in
  (chunks collected = chunks this ++ emitted
   /\ options collected = options this /\ err collected = err this
   /\ msg collected = msg this /\ ended collected = ended this
   /\ strm collected = strm this /\ result collected = result this)
  /\ (status = Z_OK ->
        result closed
        = Some (concat_chunks (opt.to (options this)) (chunks this ++ emitted)))
  /\ (status = Z_OK -> opt.to (options this) <> "string" ->
        forall bs : list (list byte), chunks this ++ emitted = map ChunkBytes bs ->
        result closed = Some (ChunkBytes (common.flattenChunks bs))
        /\ common.flattenChunks bs = concat bs)
  /\ (status = Z_OK -> opt.to (options this) = "string" ->
        forall ss : list string, chunks this ++ emitted = map ChunkString ss ->
        result closed = Some (ChunkString (String.concat "" ss)))
  /\ (status <> Z_OK ->
        result closed = result this
        /\ (result this = None -> result closed = None))
  /\ chunks closed = []
  /\ err closed = status
  /\ msg closed = zstream.msg (strm this).
Proof.
  intros collected closed.
  pose proof (onData_sequence emitted this) as Hseq. cbv zeta in Hseq.
  fold collected in Hseq.
  destruct Hseq as (Hch & Hop & Her & Hms & Hen & Hst & Hre).
  pose proof (onEnd_result status collected) as Hres. fold closed in Hres.
  rewrite Hch, Hop, Hre in Hres.
  destruct (onEnd_fields status collected) as (_ & _ & _ & _ & Hc & He & Hm).
  fold closed in Hc, He, Hm. rewrite Hst in Hm.
  split; [tauto|].
  split; [intros ->; exact Hres|].
  split.
  { intros -> Hto bs Hbs. cbn [Z.eqb Z_OK] in Hres. rewrite Hres, Hbs.
    unfold concat_chunks. apply String.eqb_neq in Hto. rewrite Hto.
    rewrite map_chunk_bytes, flattenChunks_concat. split; reflexivity. }
  split.
  { intros -> Hto ss Hss. cbn [Z.eqb Z_OK] in Hres. rewrite Hres, Hss.
    unfold concat_chunks. rewrite Hto. cbn [String.eqb Ascii.eqb Bool.eqb].
    now rewrite map_chunk_toString. }
  split; [|tauto].
  intros Hne. apply Z.eqb_neq in Hne. rewrite Hne in Hres.
  split; [exact Hres | congruence].
Qed.

(** ** The one-shot functions *)

Lemma Deflate_new_fields (opts : option arg.Options) (this : Deflate) :
  Deflate_new opts = inr this ->
  options this = Deflate_options opts
  /\ err this = 0 /\ msg this = "" /\ ended this = false
  /\ chunks this = [] /\ result this = None
  /\ fst (zlib_deflate_deflateInit2 (zstream.set_avail_out 0 zstream.new)
            (opt.level (Deflate_options opts))
            (opt.method (Deflate_options opts))
            (opt.windowBits (Deflate_options opts))
            (opt.memLevel (Deflate_options opts))
            (opt.strategy (Deflate_options opts))) = Z_OK.
Proof.
  unfold Deflate_new.
  destruct (zlib_deflate_deflateInit2 _ _ _ _ _ _) as [st s1] eqn:Ei.
  destruct (st =? Z_OK) eqn:Est; cbn [negb]; [|discriminate].
  apply Z.eqb_eq in Est.
  destruct (truthy_data _).
  - destruct (zlib_deflate_deflateSetDictionary _ _) as [st2 s3].
    destruct (negb (st2 =? Z_OK)); [discriminate|].
    intros [= <-]. cbn. tauto.
  - intros [= <-]. cbn. tauto.
Qed.

(** A finishing push calls [onEnd] exactly once, ends the driver, and when it
    leaves [err] at 0 the result is the concatenation of everything that was
    pending or emitted. *)
Lemma push_finish (fuel : nat) (this this' : Deflate) (data : Data) (mode : Mode)
    (ok : bool) (calls : list Call) :
  ended this = false ->
  flush_mode mode = Z_FINISH ->
  push fuel this data mode = Some (ok, this', calls) ->
  count_ends calls = 1%nat
  /\ ended this' = true
  /\ (ok = true <-> err this' = 0)
  /\ (err this' = 0 ->
        result this'
        = Some (concat_chunks (opt.to (options this))
                  (chunks this ++ data_of calls))).
Proof.
  intros Hend Hm Hpush. unfold push in Hpush. rewrite Hend in Hpush.
  cbv zeta in Hpush. rewrite Hm in Hpush.
  destruct (push_loop fuel _ Z_FINISH (bind_input data this))
    as [[[[|st] t] cs]|] eqn:Hloop; [| |discriminate].
  - injection Hpush as <- <- <-.
    apply push_loop_ends in Hloop.
    destruct Hloop as (n & last & before & after & _ & Hr & -> & Hb).
    pose proof (rounds_carried _ _ _ _ _ _ Hr) as (_ & _ & _ & _ & _ & _ & _ & Hc).
    destruct (push_body_cases (opt.chunkSize (options this)) Z_FINISH last)
      as [(H1 & H2 & H)|[(_ & _ & H)|(_ & _ & H)]];
      rewrite H in Hb; [|discriminate..].
    injection Hb as <- <-.
    match goal with
    | |- context [onEnd ?s ?d] =>
        destruct (onEnd_fields s d) as (_ & _ & _ & _ & _ & Her & _)
    end.
    rewrite count_ends_app, Hc. cbn [err ended set_ended].
    rewrite Her. unfold Z_OK in H2.
    repeat split; try reflexivity; intros; (discriminate || contradiction).
  - pose proof (push_loop_exit_carried _ _ _ _ _ _ _ Hloop)
      as (Ho & _ & _ & _ & _ & _ & Hch & Hc).
    unfold push_end in Hpush. cbn [Z.eqb Z_FINISH Pos.eqb] in Hpush.
    destruct (zlib_deflate_deflateEnd (strm t)) as [st' s'].
    injection Hpush as <- <- <-.
    destruct (onEnd_fields st' (set_strm s' t)) as (_ & _ & _ & _ & _ & Her & _).
    pose proof (onEnd_result st' (set_strm s' t)) as Hres.
    rewrite count_ends_app, data_of_app, Hc. cbn [err ended result set_ended].
    rewrite Her. cbn [data_of count_ends]. rewrite app_nil_r.
    split; [reflexivity|]. split; [reflexivity|].
    split; [apply Z.eqb_eq|].
    intros ->. cbn [Z.eqb Z_OK] in Hres. rewrite Hres.
    cbn [options chunks set_strm]. rewrite Ho, Hch. reflexivity.
Qed.

Lemma deflate_heap (fuel : nat) (heap : gmap positive arg.Options)
    (input : Data) (opts : option positive) :
  fst (deflate fuel heap input opts) = heap.
Proof.
  unfold deflate.
  destruct (Deflate_new _) as [e|d]; [reflexivity|].
  destruct (push _ _ _ _) as [[[ok d'] cs]|]; [|reflexivity].
  destruct (negb _); reflexivity.
Qed.

Lemma alter_present (f : arg.Options -> arg.Options)
    (heap : gmap positive arg.Options) (l : positive) (o : arg.Options) :
  heap !! l = Some o -> alter f l heap = <[l := f o]> heap.
Proof.
  intros H. apply map_eq. intros k.
  destruct (decide (l = k)) as [<-|Hne].
  - now rewrite lookup_alter_eq, lookup_insert_eq, H.
  - now rewrite lookup_alter_ne, lookup_insert_ne.
Qed.


(** C10.  For an options object [o] that the caller holds at [l]:
    after [deflateRaw(input, l)] the heap is the caller's heap with that very
    object updated to [raw = true], and after [gzip(input, l)] with
    [gzip = true], whatever the outcome of the call; nothing else is written.
    [deflate(input, l)], and with it the constructor, leaves the heap as it
    was: the merged and adjusted configuration lives in the driver's own
    object [this.options]. *)
Theorem one_shot_options_mutation (fuel : nat) (heap : gmap positive arg.Options)
    (input : Data) (l : positive) (o : arg.Options) :
  heap !! l = Some o ->
  (fst (deflateRaw fuel heap input (Some l)) = <[l := arg.set_raw true o]> heap
   /\ fst (deflateRaw fuel heap input (Some l)) !! l = Some (arg.set_raw true o)
   /\ arg.raw (arg.set_raw true o) = Some true)
  /\ (fst (gzip fuel heap input (Some l)) = <[l := arg.set_gzip true o]> heap
      /\ fst (gzip fuel heap input (Some l)) !! l = Some (arg.set_gzip true o)
      /\ arg.gzip (arg.set_gzip true o) = Some true)
  /\ (forall k : positive, k <> l ->
        fst (deflateRaw fuel heap input (Some l)) !! k = heap !! k
        /\ fst (gzip fuel heap input (Some l)) !! k = heap !! k)
  /\ fst (deflate fuel heap input (Some l)) = heap
  /\ (forall this : Deflate,
        Deflate_new (heap !! l) = inr this ->
        options this = Deflate_options (Some o)).
Proof.
  intros Hl.
  assert (Hraw : fst (deflateRaw fuel heap input (Some l))
                 = <[l := arg.set_raw true o]> heap).
  { unfold deflateRaw. cbn [options_or_empty].
    now rewrite deflate_heap, (alter_present _ _ _ _ Hl). }
  assert (Hgz : fst (gzip fuel heap input (Some l))
                = <[l := arg.set_gzip true o]> heap).
  { unfold gzip. cbn [options_or_empty].
    now rewrite deflate_heap, (alter_present _ _ _ _ Hl). }
  rewrite Hraw, Hgz.
  split; [|split; [|split; [|split]]].
  - rewrite lookup_insert_eq. repeat split.
  - rewrite lookup_insert_eq. repeat split.
  - intros k Hk. now rewrite !lookup_insert_ne by congruence.
  - apply deflate_heap.
  - intros this Hnew. rewrite Hl in Hnew.
    now destruct (Deflate_new_fields _ _ Hnew) as (H & _).
Qed.

(** The window bits that reach [deflateInit2] are those of [Deflate_options]:
    a driver exists only if the engine accepted them, and it keeps them in
    [this.options]. *)
Lemma Deflate_new_windowBits (opts : option arg.Options) (this : Deflate) :
  Deflate_new opts = inr this ->
  opt.windowBits (options this) = opt.windowBits (Deflate_options opts)
  /\ fst (zlib_deflate_deflateInit2 (zstream.set_avail_out 0 zstream.new)
            (opt.level (Deflate_options opts))
            (opt.method (Deflate_options opts))
            (opt.windowBits (Deflate_options opts))
            (opt.memLevel (Deflate_options opts))
            (opt.strategy (Deflate_options opts))) = Z_OK.
Proof.
  intros H. destruct (Deflate_new_fields _ _ H) as (-> & _ & _ & _ & _ & _ & Hi).
  now split.
Qed.

End DriverProperties.

(** * The driver on the stored-block engine *)

Example flush_mode_true : flush_mode (ModeBool true) = Z_FINISH.
Proof. reflexivity. Qed.

Example flush_mode_skipped : flush_mode ModeUndefined = Z_NO_FLUSH.
Proof. reflexivity. Qed.

Example flush_mode_out_of_int32 : flush_mode (ModeNumber (2 ^ 32 + 4)) = Z_NO_FLUSH.
Proof. reflexivity. Qed.

Example flattenChunks_two :
  common.flattenChunks [[x61; x62]; []; [x63]] = [x61; x62; x63].
Proof. reflexivity. Qed.

(** A finishing push of twelve bytes through chunks of four. *)
Example push_hello_finish :
  option_map (fun r => (fst (fst r), snd r, result (snd (fst r))))
    (push 100 (toy.new toy.chunk4) toy.hello (ModeBool true))
  = Some (true, toy.hello_calls ++ [OnEnd 0],
          Some (ChunkBytes (String.list_byte_of_string "hello, world"))).
Proof. vm_compute. reflexivity. Qed.

(** The same with [to: 'string']: the chunks are binary strings. *)
Example push_hello_string :
  option_map (fun r => (snd r, result (snd (fst r))))
    (push 100 (toy.new toy.to_string4) toy.hello (ModeBool true))
  = Some ([OnData (ChunkString "hell"); OnData (ChunkString "o, w");
           OnData (ChunkString "orld"); OnEnd 0],
          Some (ChunkString "hello, world")).
Proof. vm_compute. reflexivity. Qed.

(** A sync flush leaves the driver usable; a second, empty one makes this
    engine report a buffer error, which ends the driver. *)
Example push_flush_twice :
  option_map (fun r => (fst (fst r), err (snd (fst r)), msg (snd (fst r)),
                        ended (snd (fst r)), snd r))
    (push 100 (toy.after (toy.new toy.chunk4) toy.hello (ModeNumber Z_SYNC_FLUSH))
       toy.nothing (ModeNumber Z_SYNC_FLUSH))
  = Some (false, -5, "buffer error", true, [OnEnd (-5)]).
Proof. vm_compute. reflexivity. Qed.

(** C1, as first stated, fails on a step that reports an error.  With chunks
    of four bytes, pushing ["hello, world"] with the invalid flush mode 7
    makes the engine return -2 with all twelve input bytes still unread: the
    stated loop condition holds, yet the loop is left and [push] returns
    false.  And a second empty sync-flush makes the engine return -5 with no
    input left: a chunk is due as stated, yet the only call of the iteration
    is [onEnd (-5)]. *)
Lemma push_iteration_counterexample :
  (loop_goes_on (snd (zlib_deflate_deflate (fresh_output 4 (strm toy.bound_hello)) 7))
                (fst (zlib_deflate_deflate (fresh_output 4 (strm toy.bound_hello)) 7))
   /\ iteration_continues (push_body 4 7 toy.bound_hello) = false
   /\ push 100 (toy.new toy.chunk4) toy.hello (ModeNumber 7)
      = Some (false, toy.after (toy.new toy.chunk4) toy.hello (ModeNumber 7),
              [OnEnd (-2)]))
  /\ (chunk_due
        (snd (zlib_deflate_deflate (fresh_output 4 (strm toy.flushed_again))
                Z_SYNC_FLUSH))
        Z_SYNC_FLUSH
      /\ iteration_calls (push_body 4 Z_SYNC_FLUSH toy.flushed_again)
         = [OnEnd (-5)]).
Proof.
  split; [split; [split|split]|split].
  - left. vm_compute. reflexivity.
  - vm_compute. discriminate.
  - vm_compute. reflexivity.
  - vm_compute. reflexivity.
  - right. split; [vm_compute; reflexivity | right; reflexivity].
  - vm_compute. reflexivity.
Qed.

Lemma push_iteration_witness :
  zstream.avail_out (strm toy.bound_hello) = 0
  /\ fst (zlib_deflate_deflate (fresh_output 4 (strm toy.bound_hello)) Z_FINISH)
     = Z_OK
  /\ chunk_due
       (snd (zlib_deflate_deflate (fresh_output 4 (strm toy.bound_hello)) Z_FINISH))
       Z_FINISH
  /\ zstream.avail_out (fresh_output 4 (strm toy.bound_hello)) = 4
  /\ iteration_calls (push_body 4 Z_FINISH toy.bound_hello)
     = [OnData (ChunkBytes [x68; x65; x6c; x6c])]
  /\ iteration_continues (push_body 4 Z_FINISH toy.bound_hello) = true.
Proof.
  assert (H0 : zstream.avail_out (strm toy.bound_hello) = 0) by reflexivity.
  assert (H1 : fst (zlib_deflate_deflate
                      (fresh_output 4 (strm toy.bound_hello)) Z_FINISH) = Z_OK)
    by (vm_compute; reflexivity).
  assert (H2 : chunk_due
                 (snd (zlib_deflate_deflate
                         (fresh_output 4 (strm toy.bound_hello)) Z_FINISH))
                 Z_FINISH)
    by (left; vm_compute; reflexivity).
  assert (H3 : loop_goes_on
                 (snd (zlib_deflate_deflate
                         (fresh_output 4 (strm toy.bound_hello)) Z_FINISH))
                 (fst (zlib_deflate_deflate
                         (fresh_output 4 (strm toy.bound_hello)) Z_FINISH)))
    by (split; [right; vm_compute; reflexivity | vm_compute; discriminate]).
  destruct (push_iteration 0 4 Z_FINISH toy.bound_hello) as (Ha & _ & Hb & _).
  destruct (Ha H0) as (_ & _ & _ & Ha4).
  destruct (Hb (or_introl H1)) as (Hc & _ & Hd & _).
  destruct (Hc H2) as (Hcalls & _).
  split; [exact H0|]. split; [exact H1|]. split; [exact H2|].
  split; [exact Ha4|]. split; [rewrite Hcalls; vm_compute; reflexivity|].
  apply Hd. exact H3.
Defined.

Lemma push_after_loop_witness :
  ended (toy.new toy.chunk4) = false
  /\ push_loop 100 (opt.chunkSize (options (toy.new toy.chunk4)))
       (flush_mode (ModeBool true)) (bind_input toy.hello (toy.new toy.chunk4))
     = Some (LoopExit 1,
             toy.after_loop (toy.new toy.chunk4) toy.hello (ModeBool true),
             toy.hello_calls)
  /\ flush_mode (ModeBool true) = Z_FINISH
  /\ push 100 (toy.new toy.chunk4) toy.hello (ModeBool true)
     = Some (true, toy.after (toy.new toy.chunk4) toy.hello (ModeBool true),
             toy.hello_calls ++ [OnEnd 0])
  /\ ended (toy.after (toy.new toy.chunk4) toy.hello (ModeBool true)) = true.
Proof.
  assert (H0 : ended (toy.new toy.chunk4) = false) by reflexivity.
  assert (H1 : push_loop 100 (opt.chunkSize (options (toy.new toy.chunk4)))
                 (flush_mode (ModeBool true))
                 (bind_input toy.hello (toy.new toy.chunk4))
               = Some (LoopExit 1,
                       toy.after_loop (toy.new toy.chunk4) toy.hello (ModeBool true),
                       toy.hello_calls))
    by (vm_compute; reflexivity).
  destruct (push_after_loop 100 (toy.new toy.chunk4) toy.hello (ModeBool true)
              1 _ _ H0 H1) as (_ & Hfin & _).
  destruct (Hfin eq_refl) as (Hpush & _ & _ & _ & Hended & _).
  split; [exact H0|]. split; [exact H1|]. split; [reflexivity|].
  unfold toy.after. rewrite Hpush.
  split; [vm_compute; reflexivity | exact Hended].
Defined.

Lemma push_engine_error_witness :
  ended (toy.new toy.chunk4) = false
  /\ rounds 0 (opt.chunkSize (options (toy.new toy.chunk4)))
       (flush_mode (ModeNumber 7)) (bind_input toy.hello (toy.new toy.chunk4))
     = Some (toy.bound_hello, [])
  /\ fst (zlib_deflate_deflate
            (fresh_output (opt.chunkSize (options (toy.new toy.chunk4)))
               (strm toy.bound_hello)) (flush_mode (ModeNumber 7))) = -2
  /\ (0 < 100)%nat
  /\ push 100 (toy.new toy.chunk4) toy.hello (ModeNumber 7)
     = Some (false, toy.after (toy.new toy.chunk4) toy.hello (ModeNumber 7),
             [OnEnd (-2)])
  /\ err (toy.after (toy.new toy.chunk4) toy.hello (ModeNumber 7)) = -2
  /\ msg (toy.after (toy.new toy.chunk4) toy.hello (ModeNumber 7))
     = "stream error"
  /\ ended (toy.after (toy.new toy.chunk4) toy.hello (ModeNumber 7)) = true.
Proof.
  assert (H0 : ended (toy.new toy.chunk4) = false) by reflexivity.
  assert (H1 : rounds 0 (opt.chunkSize (options (toy.new toy.chunk4)))
                 (flush_mode (ModeNumber 7))
                 (bind_input toy.hello (toy.new toy.chunk4))
               = Some (toy.bound_hello, [])) by reflexivity.
  assert (H2 : fst (zlib_deflate_deflate
                      (fresh_output (opt.chunkSize (options (toy.new toy.chunk4)))
                         (strm toy.bound_hello)) (flush_mode (ModeNumber 7)))
               = -2) by (vm_compute; reflexivity).
  assert (H3 : (0 < 100)%nat) by lia.
  destruct (push_engine_error 0 100 (toy.new toy.chunk4) toy.hello (ModeNumber 7)
              toy.bound_hello [] H0 H1)
    as (this' & Hpush & _ & Herr & Hmsg & _ & _ & Hended & _);
    [rewrite H2; discriminate | rewrite H2; discriminate | exact H3 |].
  split; [exact H0|]. split; [exact H1|]. split; [exact H2|]. split; [exact H3|].
  unfold toy.after. rewrite Hpush. rewrite H2 in *.
  split; [reflexivity|]. split; [exact Herr|].
  split; [rewrite Hmsg; vm_compute; reflexivity | exact Hended].
Defined.

Lemma push_after_end_witness :
  ended toy.finished = true
  /\ push 7 toy.finished toy.hello (ModeNumber Z_SYNC_FLUSH)
     = Some (false, toy.finished, []).
Proof.
  assert (H : ended toy.finished = true) by (vm_compute; reflexivity).
  split; [exact H|].
  exact (push_after_end 7 toy.finished toy.hello (ModeNumber Z_SYNC_FLUSH) H).
Defined.


Lemma default_handlers_witness :
  Z_OK = Z_OK
  /\ opt.to (options (toy.new None)) <> "string"
  /\ chunks (toy.new None) ++ [ChunkBytes [x61]; ChunkBytes [x62; x63]]
     = map ChunkBytes [[x61]; [x62; x63]]
  /\ result
       (onEnd Z_OK
          (fold_left (fun d chunk => onData chunk d)
             [ChunkBytes [x61]; ChunkBytes [x62; x63]] (toy.new None)))
     = Some (ChunkBytes [x61; x62; x63]).
Proof.
  assert (H0 : opt.to (options (toy.new None)) <> "string")
    by (vm_compute; discriminate).
  assert (H1 : chunks (toy.new None) ++ [ChunkBytes [x61]; ChunkBytes [x62; x63]]
               = map ChunkBytes [[x61]; [x62; x63]]) by reflexivity.
  destruct (default_handlers (toy.new None)
              [ChunkBytes [x61]; ChunkBytes [x62; x63]] Z_OK)
    as (_ & _ & Hbytes & _).
  destruct (Hbytes eq_refl H0 _ H1) as (Hres & Hflat).
  split; [reflexivity|]. split; [exact H0|]. split; [exact H1|].
  rewrite Hres, Hflat. reflexivity.
Defined.



Lemma one_shot_options_mutation_witness :
  toy.heap1 !! 3%positive = Some toy.plain15
  /\ fst (deflateRaw 100 toy.heap1 toy.hello (Some 3%positive)) !! 3%positive
     = Some toy.raw15
  /\ fst (gzip 100 toy.heap1 toy.hello (Some 3%positive)) !! 3%positive
     = Some toy.gzip15
  /\ fst (deflate 100 toy.heap1 toy.hello (Some 3%positive)) !! 3%positive
     = Some toy.plain15.
Proof.
  assert (H : toy.heap1 !! 3%positive = Some toy.plain15) by (vm_compute; reflexivity).
  destruct (one_shot_options_mutation 100 toy.heap1 toy.hello 3%positive
              toy.plain15 H)
    as ((_ & Hraw & _) & (_ & Hgz & _) & _ & Hdef & _).
  split; [exact H|]. split; [rewrite Hraw; reflexivity|].
  split; [rewrite Hgz; reflexivity|]. rewrite Hdef. exact H.
Defined.

(** * Further properties of the code *)

(** ** [flattenChunks] *)

(** X1.  [flattenChunks] returns the chunks joined in order: its length is
    the sum of the chunks' lengths, empty chunks contribute nothing, and
    joining two lists of chunks one after the other gives the join of the
    first followed by the join of the second. *)
Theorem flattenChunks_joins (a b : list (list byte)) :
  common.flattenChunks a = concat a
  /\ length (common.flattenChunks a) = list_sum (map (@length byte) a)
  /\ common.flattenChunks (a ++ b)
     = common.flattenChunks a ++ common.flattenChunks b
  /\ common.flattenChunks (a ++ [[]] ++ b) = common.flattenChunks (a ++ b)
  /\ common.flattenChunks [] = [].
Proof.
  rewrite !flattenChunks_concat.
  split; [reflexivity|]. split; [apply length_concat|].
  split; [apply concat_app|]. split; [|reflexivity].
  now rewrite !concat_app.
Qed.

(** ** The flush mode of a push *)

Lemma to_int32_fixed (n : Z) : n = to_int32 n <-> - 2 ^ 31 <= n < 2 ^ 31.
Proof.
  unfold to_int32. split.
  - intros H.
    pose proof (Z.mod_pos_bound (n + 2 ^ 31) (2 ^ 32) ltac:(lia)). lia.
  - intros H. rewrite Z.mod_small by lia. lia.
Qed.

(** X2.  A numeric mode is passed to the engine unchanged exactly when it is
    in the signed 32-bit range; any other number is treated as Z_NO_FLUSH, as
    are [false] and a skipped mode, and [true] is Z_FINISH.  Whatever the
    argument, the mode handed to the engine is in the signed 32-bit range. *)
Theorem flush_mode_range (mode : Mode) :
  - 2 ^ 31 <= flush_mode mode < 2 ^ 31
  /\ (forall n : Z, mode = ModeNumber n ->
        (- 2 ^ 31 <= n < 2 ^ 31 -> flush_mode mode = n)
        /\ (~ (- 2 ^ 31 <= n < 2 ^ 31) -> flush_mode mode = Z_NO_FLUSH))
  /\ (forall b : bool, mode = ModeBool b ->
        flush_mode mode = if b then Z_FINISH else Z_NO_FLUSH)
  /\ (mode = ModeUndefined -> flush_mode mode = Z_NO_FLUSH).
Proof.
  split; [|split; [|split]].
  - destruct mode as [n|[|]|]; cbn [flush_mode]; unfold Z_FINISH, Z_NO_FLUSH;
      try lia.
    destruct (n =? to_int32 n) eqn:E; [|lia].
    apply Z.eqb_eq in E. now apply to_int32_fixed.
  - intros n ->. cbn [flush_mode]. split; intros H.
    + apply to_int32_fixed in H. apply Z.eqb_eq in H. now rewrite H.
    + destruct (n =? to_int32 n) eqn:E; [|reflexivity].
      apply Z.eqb_eq, to_int32_fixed in E. contradiction.
  - intros b ->. now destruct b.
  - now intros ->.
Qed.

(** ** Framing selected by the window bits *)


Section DriverCoverage.

Context {EngineState : Type} `{!Imports EngineState}.

Local Abbreviation ZStream := (zstream.ZStream EngineState).
Local Abbreviation Deflate := (@Deflate EngineState).

(** ** The constructor *)

(** X3.  [new Deflate(options)] throws exactly when [deflateInit2] does not
    return Z_OK, or a truthy dictionary is given and [deflateSetDictionary]
    does not return Z_OK; what it throws is an [Error] carrying the message
    table's entry for that status.  A driver it returns is live and empty
    ([err] 0, [msg] empty, not ended, no chunks, no result), holds the
    adjusted options, and has [_dict_set] exactly when the dictionary is
    truthy: a dictionary given as the empty string is not registered with the
    engine, and the stream is then as [deflateInit2] and [deflateSetHeader]
    left it. *)
Theorem Deflate_new_outcome (opts : option arg.Options) :
  let o := Deflate_options opts in
  let init :=
    zlib_deflate_deflateInit2 (zstream.set_avail_out 0 zstream.new)
      (opt.level o) (opt.method o) (opt.windowBits o) (opt.memLevel o)
      (opt.strategy o) in
  let with_header :=
    match opt.header o with
    | Some header => zlib_deflate_deflateSetHeader (snd init) header
    | None => snd init
    end in
  let dict :=
    zlib_deflate_deflateSetDictionary with_header
      (convert (default (DataBytes []) (opt.dictionary o))) in
  ((exists e, Deflate_new opts = inl e)
   <-> fst init <> Z_OK
       \/ (truthy_data (opt.dictionary o) = true /\ fst dict <> Z_OK))
  /\ (forall e, Deflate_new opts = inl e ->
        e = ThrowError (messages (fst init)) /\ fst init <> Z_OK
        \/ e = ThrowError (messages (fst dict)) /\ fst dict <> Z_OK)
  /\ (forall this : Deflate, Deflate_new opts = inr this ->
        options this = o /\ err this = 0 /\ msg this = "" /\ ended this = false
        /\ chunks this = [] /\ result this = None
        /\ _dict_set this = truthy_data (opt.dictionary o)
        /\ strm this
           = if truthy_data (opt.dictionary o) then snd dict else with_header)
  /\ (opt.dictionary o = Some (DataString "") ->
        forall this : Deflate, Deflate_new opts = inr this ->
        _dict_set this = false /\ strm this = with_header).
Proof.
  intros o init with_header dict.
  assert (Hnew : Deflate_new opts
                 = if negb (fst init =? Z_OK)
                   then inl (ThrowError (messages (fst init)))
                   else if truthy_data (opt.dictionary o)
                        then if negb (fst dict =? Z_OK)
                             then inl (ThrowError (messages (fst dict)))
                             else inr {| options := o; err := 0; msg := "";
                                         ended := false; chunks := [];
                                         strm := snd dict; result := None;
                                         _dict_set := true |}
                        else inr {| options := o; err := 0; msg := "";
                                    ended := false; chunks := [];
                                    strm := with_header; result := None;
                                    _dict_set := false |}).
  { unfold Deflate_new. fold o. fold init.
    destruct init as [st s1] eqn:Ei. cbn [fst snd] in *.
    destruct (negb (st =? Z_OK)); [reflexivity|].
    fold with_header.
    destruct (truthy_data (opt.dictionary o)); [|reflexivity].
    fold dict. destruct dict as [st2 s3]. cbn [fst snd].
    destruct (negb (st2 =? Z_OK)); reflexivity. }
  rewrite Hnew.
  destruct (fst init =? Z_OK) eqn:E1; cbn [negb];
    rewrite ?Z.eqb_eq, ?Z.eqb_neq in E1.
  2: { split; [split; [intros _; now left | intros _; eauto]|].
       split; [intros e [= <-]; now left|].
       split; [intros this [=]|]. intros _ this [=]. }
  destruct (truthy_data (opt.dictionary o)) eqn:Et.
  - destruct (fst dict =? Z_OK) eqn:E2; cbn [negb];
      rewrite ?Z.eqb_eq, ?Z.eqb_neq in E2.
    + split; [split; [intros [e [=]] | intros [H|[_ H]]; contradiction]|].
      split; [intros e [=]|].
      split; [intros this [= <-]; cbn; tauto|].
      intros Hd. rewrite Hd in Et. discriminate.
    + split; [split; [intros _; right; now split | intros _; eauto]|].
      split; [intros e [= <-]; now right|].
      split; [intros this [=]|]. intros _ this [=].
  - split; [split; [intros [e [=]] | intros [H|[H _]]; [contradiction|discriminate]]|].
    split; [intros e [=]|].
    split; [intros this [= <-]; cbn; tauto|].
    intros _ this [= <-]. cbn. tauto.
Qed.

(** ** What every push keeps *)

Lemma push_body_return (chunkSize _mode : Z) (this this' : Deflate)
    (calls : list Call) :
  push_body chunkSize _mode this = IterReturn this' calls ->
  exists status : Z,
    status <> Z_OK /\ status <> Z_STREAM_END
    /\ calls = [OnEnd status]
    /\ options this' = options this /\ _dict_set this' = _dict_set this
    /\ ended this' = true /\ err this' = status /\ chunks this' = [].
Proof.
  intros Hb.
  destruct (push_body_cases chunkSize _mode this)
    as [(H1 & H2 & H)|[(_ & _ & H)|(_ & _ & H)]];
    rewrite H in Hb; [|discriminate..].
  injection Hb as <- <-.
  eexists. split; [exact H2|]. split; [exact H1|]. split; [reflexivity|].
  match goal with
  | |- context [onEnd ?s ?d] =>
      destruct (onEnd_fields s d) as (Ho & _ & _ & Hd & Hc & He & _)
  end.
  cbn [options _dict_set ended err chunks set_ended].
  rewrite Ho, Hd, Hc, He. cbn. tauto.
Qed.

(** The shape of a push that returns on a driver that has not ended. *)
Lemma push_live (fuel : nat) (this this' : Deflate) (data : Data) (mode : Mode)
    (ok : bool) (calls : list Call) :
  ended this = false ->
  push fuel this data mode = Some (ok, this', calls) ->
  (exists (status : Z) (emitted : list Call),
     status <> Z_OK /\ status <> Z_STREAM_END
     /\ count_ends emitted = 0%nat
     /\ calls = emitted ++ [OnEnd status]
     /\ ok = false /\ ended this' = true /\ err this' = status
     /\ chunks this' = []
     /\ options this' = options this /\ _dict_set this' = _dict_set this)
  \/ (exists (status : Z) (this1 : Deflate) (emitted : list Call),
        push_loop fuel (opt.chunkSize (options this)) (flush_mode mode)
          (bind_input data this) = Some (LoopExit status, this1, emitted)
        /\ carried this this1 emitted
        /\ (ok, this', calls)
           = let '(r, t, calls') := push_end (flush_mode mode) this1 in
             (r, t, emitted ++ calls')).
Proof.
  intros Hend Hpush. unfold push in Hpush. rewrite Hend in Hpush.
  cbv zeta in Hpush.
  destruct (push_loop fuel _ _ (bind_input data this))
    as [[[[|st] t] cs]|] eqn:Hloop; [| |discriminate].
  - left. injection Hpush as <- <- <-.
    apply push_loop_ends in Hloop.
    destruct Hloop as (n & last & before & after & _ & Hr & -> & Hb).
    pose proof (rounds_carried _ _ _ _ _ _ Hr)
      as (Ho & _ & _ & _ & _ & Hd & _ & Hc).
    destruct (push_body_return _ _ _ _ _ Hb)
      as (status & H1 & H2 & -> & Ho' & Hd' & He & Her & Hch).
    exists status, before.
    cbn [options _dict_set bind_input set_strm] in Ho, Hd.
    repeat split; try assumption; congruence.
  - right. exists st, t, cs. split; [reflexivity|].
    split.
    + pose proof (push_loop_exit_carried _ _ _ _ _ _ _ Hloop) as Hc.
      unfold carried in *. cbn in Hc. exact Hc.
    + destruct (push_end (flush_mode mode) t) as [[r u] cs'].
      now injection Hpush as <- <- <-.
Qed.

Lemma push_end_cases (_mode : Z) (this : Deflate) :
  let fin := zlib_deflate_deflateEnd (strm this) in
  (_mode = Z_FINISH
   /\ push_end _mode this
      = (fst fin =? Z_OK,
         set_ended true (onEnd (fst fin) (set_strm (snd fin) this)),
         [OnEnd (fst fin)]))
  \/ (_mode <> Z_FINISH /\ _mode = Z_SYNC_FLUSH
      /\ push_end _mode this
         = (true,
            set_strm (zstream.set_avail_out 0 (strm this)) (onEnd Z_OK this),
            [OnEnd Z_OK]))
  \/ (_mode <> Z_FINISH /\ _mode <> Z_SYNC_FLUSH
      /\ push_end _mode this = (true, this, [])).
Proof.
  intros fin. unfold push_end.
  destruct (_mode =? Z_FINISH) eqn:E1; rewrite ?Z.eqb_eq, ?Z.eqb_neq in E1.
  - left. split; [assumption|]. fold fin. now destruct fin.
  - right. destruct (_mode =? Z_SYNC_FLUSH) eqn:E2;
      rewrite ?Z.eqb_eq, ?Z.eqb_neq in E2.
    + left. split; [assumption|]. split; [assumption|].
      destruct (onEnd_fields Z_OK this) as (_ & _ & Hs & _). now rewrite Hs.
    + right. tauto.
Qed.

(** X5.  Whatever the data and the mode, a push that returns has called
    [onEnd] at most once, and only as its last call, after all its [onData]
    calls.  On a driver that had ended it makes no call at all; on a live
    driver it calls [onEnd] exactly when it leaves the driver ended or the
    mode is Z_SYNC_FLUSH. *)
Theorem push_calls_shape (fuel : nat) (this this' : Deflate) (data : Data)
    (mode : Mode) (ok : bool) (calls : list Call) :
  push fuel this data mode = Some (ok, this', calls) ->
  (exists (emitted ends : list Call),
     calls = emitted ++ ends
     /\ count_ends emitted = 0%nat
     /\ (ends = [] \/ exists status : Z, ends = [OnEnd status]))
  /\ (count_ends calls <= 1)%nat
  /\ (ended this = true -> calls = [])
  /\ (ended this = false ->
        (count_ends calls = 1%nat
         <-> ended this' = true \/ flush_mode mode = Z_SYNC_FLUSH)).
Proof.
  intros Hpush.
  destruct (ended this) eqn:Hend.
  - unfold push in Hpush. rewrite Hend in Hpush. injection Hpush as <- <- <-.
    split; [exists [], []; cbn; tauto|]. cbn. repeat split; (lia || discriminate).
  - destruct (push_live _ _ _ _ _ _ _ Hend Hpush)
      as [(st & em & _ & _ & Hc & -> & _ & He & _)
         |(st & t & em & _ & Hcar & Hp)].
    + rewrite count_ends_app, Hc. cbn.
      split; [exists em, [OnEnd st]; eauto|].
      repeat split; try lia; try discriminate; intros _; now left.
    + destruct Hcar as (_ & Het & _ & _ & _ & _ & _ & Hc). rewrite Hend in Het.
      destruct (push_end_cases (flush_mode mode) t)
        as [(Hm & Hpe)|[(Hm1 & Hm2 & Hpe)|(Hm1 & Hm2 & Hpe)]];
        rewrite Hpe in Hp; injection Hp as -> -> ->;
        rewrite ?count_ends_app, ?Hc; cbn [count_ends Nat.add].
      * split; [exists em, [OnEnd (zlib_deflate_deflateEnd (strm t)).1]; eauto|].
        repeat split; try lia; try discriminate; intros _; now left.
      * split; [exists em, [OnEnd Z_OK]; eauto|].
        repeat split; try lia; try discriminate; intros _; now right.
      * split; [exists em, []; rewrite app_nil_r; eauto|].
        rewrite app_nil_r, ?Hc.
        repeat split; try lia; try discriminate.
        all: intros [Hx|Hx]; [congruence | contradiction].
Qed.

(** X6.  On a live driver the boolean that [push] returns agrees with the
    driver's fields: when it is false the driver has ended with a non-zero
    [err] and an empty chunk list; when it is true the driver has ended
    exactly if the mode was Z_FINISH, and after Z_FINISH or Z_SYNC_FLUSH
    [err] is 0. *)
Theorem push_result_agrees (fuel : nat) (this this' : Deflate) (data : Data)
    (mode : Mode) (ok : bool) (calls : list Call) :
  ended this = false ->
  push fuel this data mode = Some (ok, this', calls) ->
  (ok = false -> ended this' = true /\ err this' <> 0 /\ chunks this' = [])
  /\ (ok = true ->
        (ended this' = true <-> flush_mode mode = Z_FINISH)
        /\ (flush_mode mode = Z_FINISH \/ flush_mode mode = Z_SYNC_FLUSH ->
              err this' = 0)).
Proof.
  intros Hend Hpush.
  destruct (push_live _ _ _ _ _ _ _ Hend Hpush)
    as [(st & em & H1 & _ & _ & _ & -> & He & Her & Hch & _)
       |(st & t & em & _ & Hcar & Hp)].
  - split; [intros _; rewrite Her; unfold Z_OK in H1; tauto | discriminate].
  - destruct Hcar as (_ & Het & _). rewrite Hend in Het.
    destruct (push_end_cases (flush_mode mode) t)
      as [(Hm & Hpe)|[(Hm1 & Hm2 & Hpe)|(Hm1 & Hm2 & Hpe)]];
      rewrite Hpe in Hp; injection Hp as -> -> ->.
    + match goal with
      | |- context [onEnd ?s ?d] =>
          destruct (onEnd_fields s d) as (_ & _ & _ & _ & Hc & Her & _)
      end.
      cbn [ended err chunks set_ended]. rewrite Her, Hc.
      split.
      * intros H. apply Z.eqb_neq in H. unfold Z_OK in H. tauto.
      * intros H. apply Z.eqb_eq in H. unfold Z_OK in H. tauto.
    + destruct (onEnd_fields Z_OK t) as (_ & Hen & _ & _ & _ & Her & _).
      cbn [ended err set_strm]. rewrite Her, Hen, Het.
      split; [discriminate|]. intros _.
      split; [split; [discriminate | congruence] | reflexivity].
    + split; [discriminate|]. intros _. rewrite Het.
      split; [split; [discriminate | contradiction] | tauto].
Qed.

(** X7.  No push changes the driver's configuration: [options] and
    [_dict_set] are the same afterwards, however the push ends.  A push that
    returns true in a mode other than Z_FINISH and Z_SYNC_FLUSH also leaves
    [err], [msg] and [result] as they were and only appends the chunks it
    emitted to the pending list. *)
Theorem push_frame (fuel : nat) (this this' : Deflate) (data : Data)
    (mode : Mode) (ok : bool) (calls : list Call) :
  push fuel this data mode = Some (ok, this', calls) ->
  options this' = options this
  /\ _dict_set this' = _dict_set this
  /\ (ended this = false -> ok = true ->
      flush_mode mode <> Z_FINISH -> flush_mode mode <> Z_SYNC_FLUSH ->
      err this' = err this /\ msg this' = msg this
      /\ result this' = result this
      /\ chunks this' = chunks this ++ data_of calls
      /\ count_ends calls = 0%nat).
Proof.
  intros Hpush.
  destruct (ended this) eqn:Hend.
  - unfold push in Hpush. rewrite Hend in Hpush. injection Hpush as <- <- <-.
    split; [reflexivity|]. split; [reflexivity|]. discriminate.
  - destruct (push_live _ _ _ _ _ _ _ Hend Hpush)
      as [(st & em & _ & _ & _ & _ & -> & _ & _ & _ & Ho & Hd)
         |(st & t & em & _ & Hcar & Hp)].
    + split; [assumption|]. split; [assumption|]. discriminate.
    + destruct Hcar as (Ho & _ & Her & Hms & Hre & Hd & Hch & Hc).
      destruct (push_end_cases (flush_mode mode) t)
        as [(Hm & Hpe)|[(Hm1 & Hm2 & Hpe)|(Hm1 & Hm2 & Hpe)]];
        rewrite Hpe in Hp; injection Hp as -> -> ->.
      * match goal with
        | |- context [onEnd ?s ?d] =>
            destruct (onEnd_fields s d) as (Ho' & _ & _ & Hd' & _)
        end.
        cbn [options _dict_set set_ended]. rewrite Ho', Hd'.
        cbn [options _dict_set set_strm].
        split; [assumption|]. split; [assumption|].
        intros _ _ Hn _. contradiction.
      * destruct (onEnd_fields Z_OK t) as (Ho' & _ & _ & Hd' & _).
        cbn [options _dict_set set_strm]. rewrite Ho', Hd'.
        split; [assumption|]. split; [assumption|].
        intros _ _ _ Hn. contradiction.
      * rewrite app_nil_r. repeat split; assumption.
Qed.

(** ** The representation of the output *)






(** ** Results of flushing and finishing pushes *)

Lemma push_flush_fields (fuel : nat) (this this' : Deflate) (data : Data)
    (mode : Mode) (calls : list Call) :
  ended this = false ->
  flush_mode mode = Z_FINISH \/ flush_mode mode = Z_SYNC_FLUSH ->
  push fuel this data mode = Some (true, this', calls) ->
  result this'
  = Some (concat_chunks (opt.to (options this)) (chunks this ++ data_of calls))
  /\ chunks this' = []
  /\ options this' = options this
  /\ msg this' = zstream.msg (strm this')
  /\ (flush_mode mode = Z_SYNC_FLUSH -> ended this' = false).
Proof.
  intros Hend Hm Hpush.
  destruct (push_live _ _ _ _ _ _ _ Hend Hpush)
    as [(st & em & _ & _ & _ & _ & Hx & _)|(st & t & em & _ & Hcar & Hp)];
    [discriminate|].
  destruct Hcar as (Ho & Het & _ & _ & _ & _ & Hch & _). rewrite Hend in Het.
  destruct (push_end_cases (flush_mode mode) t)
    as [(Hm1 & Hpe)|[(Hm1 & Hm2 & Hpe)|(Hm1 & Hm2 & Hpe)]];
    [| |destruct Hm; contradiction];
    rewrite Hpe in Hp.
  - injection Hp as Hok -> ->.
    rewrite data_of_app; cbn [data_of]; rewrite app_nil_r.
    match goal with
    | |- context [onEnd ?s ?d] =>
        pose proof (onEnd_result s d) as Hres;
        destruct (onEnd_fields s d) as (Ho' & _ & Hs & _ & Hc & _ & Hmsg)
    end.
    rewrite <- Hok in Hres.
    cbn [result chunks options msg strm set_ended].
    rewrite Hres, Hc, Ho', Hmsg, Hs. cbn [options chunks set_strm].
    rewrite Ho, Hch. repeat split. intros Hx. rewrite Hm1 in Hx. discriminate.
  - injection Hp as -> ->.
    rewrite data_of_app; cbn [data_of]; rewrite app_nil_r.
    pose proof (onEnd_result Z_OK t) as Hres.
    destruct (onEnd_fields Z_OK t) as (Ho' & Hen & Hs & _ & Hc & _ & Hmsg).
    cbn [Z.eqb Z_OK] in Hres.
    cbn [result chunks options msg strm ended set_strm].
    rewrite Hres, Hc, Ho', Hmsg, Hen, Ho, Hch. repeat split. intros _. exact Het.
Qed.

(** X9.  A push in Z_FINISH or Z_SYNC_FLUSH mode that returns true leaves in
    [result] the in-order concatenation of the chunks that were pending and
    the chunks it emitted, empties the pending list and copies the stream's
    message.  Hence after a sync flush the result of the next flushing or
    finishing push holds only what that push emitted: [result] is the output
    since the previous flush, not the output of the whole stream. *)
Theorem push_flush_result (fuel : nat) (this this' : Deflate) (data : Data)
    (mode : Mode) (calls : list Call) :
  ended this = false ->
  flush_mode mode = Z_FINISH \/ flush_mode mode = Z_SYNC_FLUSH ->
  push fuel this data mode = Some (true, this', calls) ->
  result this'
  = Some (concat_chunks (opt.to (options this)) (chunks this ++ data_of calls))
  /\ chunks this' = []
  /\ msg this' = zstream.msg (strm this')
  /\ (flush_mode mode = Z_SYNC_FLUSH ->
      forall (fuel2 : nat) (data2 : Data) (mode2 : Mode) (this2 : Deflate)
             (calls2 : list Call),
        flush_mode mode2 = Z_FINISH \/ flush_mode mode2 = Z_SYNC_FLUSH ->
        push fuel2 this' data2 mode2 = Some (true, this2, calls2) ->
        result this2
        = Some (concat_chunks (opt.to (options this)) (data_of calls2))).
Proof.
  intros Hend Hm Hpush.
  destruct (push_flush_fields _ _ _ _ _ _ Hend Hm Hpush)
    as (Hres & Hch & Ho & Hmsg & Hlive).
  split; [exact Hres|]. split; [exact Hch|]. split; [exact Hmsg|].
  intros Hsync fuel2 data2 mode2 this2 calls2 Hm2 Hpush2.
  destruct (push_flush_fields _ _ _ _ _ _ (Hlive Hsync) Hm2 Hpush2)
    as (Hres2 & _).
  now rewrite Hres2, Hch, Ho.
Qed.

(** ** The one-shot functions *)

Lemma Deflate_new_throws_error (opts : option arg.Options) (e : Thrown) :
  @Deflate_new EngineState _ opts = inl e -> exists m, e = ThrowError m.
Proof.
  unfold Deflate_new.
  destruct (zlib_deflate_deflateInit2 _ _ _ _ _ _) as [st s1].
  destruct (negb (st =? Z_OK)); [intros [= <-]; eauto|].
  destruct (truthy_data _); [|discriminate].
  destruct (zlib_deflate_deflateSetDictionary _ _) as [st2 s3].
  destruct (negb (st2 =? Z_OK)); [intros [= <-]; eauto | discriminate].
Qed.

(** X10.  When [deflate] returns, what it returns is never [undefined]: it is
    the concatenation of the chunks of its single push, a binary string when
    [to] is ['string'] and a byte array otherwise.  When it throws a bare
    value, the driver's push had failed: [err] was not 0. *)
Theorem deflate_returns_value (fuel : nat) (heap : gmap positive arg.Options)
    (input : Data) (opts : option positive) :
  (forall v : option Chunk,
     snd (deflate fuel heap input opts) = Some (Return v) ->
     exists chunk : Chunk,
       v = Some chunk
       /\ is_string chunk
          = String.eqb (opt.to (Deflate_options (opts ≫= (heap !!.)))) "string")
  /\ (forall v : option string,
        snd (deflate fuel heap input opts) = Some (Throw (ThrowValue v)) ->
        exists (deflator deflator' : Deflate) (calls : list Call),
          Deflate_new (opts ≫= (heap !!.)) = inr deflator
          /\ push fuel deflator input (ModeBool true)
             = Some (false, deflator', calls)
          /\ err deflator' <> 0 /\ ended deflator' = true).
Proof.
  unfold deflate.
  destruct (Deflate_new (opts ≫= (heap !!.))) as [e|d] eqn:Hnew.
  { destruct (Deflate_new_throws_error _ _ Hnew) as [m ->].
    split; intros v [=]. }
  destruct (Deflate_new_fields _ _ Hnew) as (Ho & _ & _ & Hend & Hch & _).
  destruct (push fuel d input (ModeBool true)) as [[[ok d'] cs]|] eqn:Hpush.
  2: { split; intros v [=]. }
  destruct (push_finish fuel d d' input (ModeBool true) ok cs Hend eq_refl Hpush)
    as (_ & Hended & Hok & Hres).
  destruct (err d' =? 0) eqn:He; cbn [negb snd];
    rewrite ?Z.eqb_eq, ?Z.eqb_neq in He.
  - split; [|intros v [=]].
    intros v [= <-]. rewrite (Hres He), Hch. cbn [app].
    eexists. split; [reflexivity|]. rewrite Ho.
    unfold concat_chunks. now destruct (String.eqb _ _).
  - split; [intros v [=]|].
    intros v _. exists d, d', cs. split; [reflexivity|].
    destruct ok.
    + exfalso. apply He. now apply Hok.
    + tauto.
Qed.


(** X12.  Because [deflateRaw] leaves [raw = true] in the caller's options
    object, a later call with the same object is a raw call too: [deflate]
    with it behaves as [deflateRaw], and [gzip] with it runs on an object
    with both flags set, for which the engine gets negated window bits (raw
    framing), not gzip framing. *)
Theorem one_shot_options_reuse (fuel1 fuel2 : nat)
    (heap : gmap positive arg.Options) (input1 input2 : Data) (l : positive)
    (o : arg.Options) :
  heap !! l = Some o ->
  let heap1 := fst (deflateRaw fuel1 heap input1 (Some l)) in
  let both := arg.set_gzip true (arg.set_raw true o) in
  let w := opt.windowBits (assign defaults o) in
  heap1 !! l = Some (arg.set_raw true o)
  /\ deflate fuel2 heap1 input2 (Some l) = deflateRaw fuel2 heap input2 (Some l)
  /\ gzip fuel2 heap1 input2 (Some l)
     = deflate fuel2 (<[l := both]> heap) input2 (Some l)
  /\ fst (gzip fuel2 heap1 input2 (Some l)) !! l = Some both
  /\ (w > 0 -> opt.windowBits (Deflate_options (Some both)) = - w)
  /\ (w > 0 -> forall this : Deflate,
        Deflate_new (fst (gzip fuel2 heap1 input2 (Some l)) !! l) = inr this ->
        opt.windowBits (options this) < 0).
Proof.
  intros Hl heap1 both w.
  assert (H1 : heap1 = <[l := arg.set_raw true o]> heap).
  { subst heap1. unfold deflateRaw. cbn [options_or_empty].
    now rewrite deflate_heap, (alter_present _ _ _ _ Hl). }
  assert (Hgz : gzip fuel2 heap1 input2 (Some l)
                = deflate fuel2 (<[l := both]> heap) input2 (Some l)).
  { unfold gzip. cbn [options_or_empty]. rewrite H1.
    rewrite (alter_present _ _ l (arg.set_raw true o)) by apply lookup_insert_eq.
    now rewrite insert_insert_eq. }
  assert (Hw : w > 0 -> opt.windowBits (Deflate_options (Some both)) = - w).
  { intros Hpos. unfold Deflate_options, adjust_windowBits.
    change (default arg.empty (Some both)) with both.
    change (opt.raw (assign defaults both)) with (Some true).
    change (opt.windowBits (assign defaults both)) with w.
    change (truthy (Some true)) with true. cbn [andb]. apply Z.gt_lt, Z.gtb_lt in Hpos.
    rewrite Hpos. reflexivity. }
  split; [rewrite H1; apply lookup_insert_eq|].
  split.
  { unfold deflateRaw. cbn [options_or_empty].
    now rewrite H1, (alter_present _ _ _ _ Hl). }
  split; [exact Hgz|].
  rewrite Hgz, deflate_heap, lookup_insert_eq.
  split; [reflexivity|]. split; [exact Hw|].
  intros Hpos this Hnew.
  destruct (Deflate_new_fields _ _ Hnew) as (-> & _). rewrite (Hw Hpos). lia.
Qed.

(** ** Byte accounting of the chunk loop *)

Lemma emitted_chunk_payload (to : string) (strm : ZStream) :
  chunk_payload (emitted_chunk to strm) = filled strm.
Proof.
  unfold emitted_chunk, buf2binstring, filled.
  destruct (String.eqb _ _); cbn [chunk_payload]; [|reflexivity].
  apply String.list_byte_of_string_of_list_byte.
Qed.

Lemma fresh_output_ready (chunkSize : Z) (this : Deflate) :
  0 <= chunkSize ->
  buffer_ready chunkSize this ->
  output_wf (fresh_output chunkSize (strm this))
  /\ length (zstream.output (fresh_output chunkSize (strm this)))
     = Z.to_nat chunkSize
  /\ filled (fresh_output chunkSize (strm this)) = held this.
Proof.
  intros Hcs Hready. unfold fresh_output, held.
  destruct (zstream.avail_out (strm this) =? 0) eqn:E;
    rewrite ?Z.eqb_eq, ?Z.eqb_neq in E.
  - unfold output_wf, filled, common.shrinkBuf, common.Buf8. cbn.
    rewrite repeat_length. repeat split; lia.
  - destruct Hready as [H|(Hwf & Hlen)]; [contradiction|]. tauto.
Qed.

Lemma step_filled (_mode : Z) (before : ZStream) :
  engine_appends _mode ->
  output_wf before ->
  fst (zlib_deflate_deflate before _mode) = Z_STREAM_END
  \/ fst (zlib_deflate_deflate before _mode) = Z_OK ->
  filled (snd (zlib_deflate_deflate before _mode))
  = filled before ++ step_written before (snd (zlib_deflate_deflate before _mode)).
Proof.
  intros Heng Hwf Hst.
  destruct (Heng before Hwf ltac:(tauto)) as (Hwf' & _ & Hle & Hpre & _).
  unfold step_written.
  rewrite <- (firstn_skipn (Z.to_nat (zstream.next_out before))
                (filled (snd (zlib_deflate_deflate before _mode)))) at 1.
  f_equal. rewrite <- Hpre. unfold filled, common.shrinkBuf.
  rewrite firstn_firstn. f_equal.
  destruct Hwf as (H0 & _). lia.
Qed.

Lemma push_body_accounts (chunkSize _mode : Z) (this this' : Deflate)
    (c : bool) (status : Z) (calls : list Call) :
  0 <= chunkSize ->
  engine_appends _mode ->
  buffer_ready chunkSize this ->
  push_body chunkSize _mode this = IterTest c status this' calls ->
  let before := fresh_output chunkSize (strm this) in
  let after := snd (zlib_deflate_deflate before _mode) in
  let kept := if emits after _mode then [] else filled after in
  strm this' = after
  /\ output_wf after
  /\ length (zstream.output after) = Z.to_nat chunkSize
  /\ concat (map chunk_payload (data_of calls)) ++ kept
     = held this ++ step_written before after
  /\ (c = true ->
        held this' = kept
        /\ Forall (fun ch => length (chunk_payload ch) = Z.to_nat chunkSize)
             (data_of calls))
  /\ Forall (fun ch => (length (chunk_payload ch) <= Z.to_nat chunkSize)%nat)
       (data_of calls)
  /\ (length (data_of calls) <= 1)%nat
  /\ (c = false -> _mode = Z_FINISH \/ _mode = Z_SYNC_FLUSH ->
        emits after _mode = true).
Proof.
  intros Hcs Heng Hready Hb before after kept.
  destruct (fresh_output_ready chunkSize this Hcs Hready) as (Hwf & Hlen & Hheld).
  fold before in Hwf, Hlen, Hheld.
  pose proof (push_body_cases chunkSize _mode this) as Hc. cbv zeta in Hc.
  fold before in Hc. fold after in Hc.
  assert (Hst : fst (zlib_deflate_deflate before _mode) = Z_STREAM_END
                \/ fst (zlib_deflate_deflate before _mode) = Z_OK).
  { destruct Hc as [(_ & _ & H)|[(H & _)|(H & _)]];
      [rewrite H in Hb; discriminate | exact H | exact H]. }
  destruct (Heng before Hwf ltac:(tauto))
    as (Hwf' & Hlen' & Hle & Hpre & Hin & Hend).
  fold after in Hwf', Hlen', Hle, Hpre, Hin, Hend.
  pose proof (step_filled _mode before Heng Hwf Hst) as Hfill.
  fold after in Hfill. rewrite Hheld in Hfill.
  assert (Hfull : zstream.avail_out after = 0 ->
                  length (filled after) = Z.to_nat chunkSize).
  { intros H0. unfold filled, common.shrinkBuf. rewrite length_firstn.
    destruct Hwf' as (Hn & _ & Hsum). lia. }
  assert (Hbound : (length (filled after) <= Z.to_nat chunkSize)%nat).
  { unfold filled, common.shrinkBuf. rewrite length_firstn. lia. }
  assert (Hcont : c = continues after status
                  /\ strm this' = after
                  /\ ((emits after _mode = true
                       /\ data_of calls
                          = [emitted_chunk (opt.to (options this)) after])
                      \/ (emits after _mode = false /\ data_of calls = []))).
  { destruct Hc as [(_ & _ & H)|[(_ & Hd & H)|(_ & Hd & H)]];
      rewrite H in Hb; [discriminate| |]; injection Hb as <- <- <- <-.
    - apply emits_spec in Hd. cbn. tauto.
    - assert (emits after _mode = false).
      { destruct (emits after _mode) eqn:E; [|reflexivity].
        apply emits_spec in E. contradiction. }
      cbn. tauto. }
  destruct Hcont as (Hcv & Hs & Hcalls).
  assert (Hkept : c = true -> held this' = kept).
  { intros Hct. rewrite Hcv in Hct. apply continues_spec in Hct.
    destruct Hct as (Hgo & _). unfold held, kept. rewrite Hs.
    destruct (emits after _mode) eqn:E.
    - apply emits_spec in E.
      assert (H0 : zstream.avail_out after = 0).
      { destruct E as [E|(E & _)]; [exact E|]. destruct Hgo; [lia | assumption]. }
      apply Z.eqb_eq in H0. now rewrite H0.
    - assert (H0 : zstream.avail_out after <> 0).
      { intros H0. assert (emits after _mode = true)
          by (apply emits_spec; now left). congruence. }
      apply Z.eqb_neq in H0. now rewrite H0. }
  split; [exact Hs|]. split; [exact Hwf'|].
  split; [now rewrite Hlen'|].
  destruct Hcalls as [(He & Hd)|(He & Hd)]; rewrite Hd; subst kept; rewrite He;
    cbn [map concat length]; rewrite ?emitted_chunk_payload, ?app_nil_r.
  - split; [exact Hfill|].
    split.
    { intros Hct. split; [rewrite (Hkept Hct), He; reflexivity|].
      constructor; [|constructor]. rewrite emitted_chunk_payload.
      apply Hfull. rewrite Hcv in Hct. apply continues_spec in Hct.
      apply emits_spec in He.
      destruct Hct as (Hgo & _).
      destruct He as [E|(E & _)]; [exact E|]. destruct Hgo; [lia | assumption]. }
    split; [constructor; [now rewrite emitted_chunk_payload | constructor]|].
    split; [lia | tauto].
  - split; [exact Hfill|].
    split.
    { intros Hct. split; [rewrite (Hkept Hct), He; reflexivity | constructor]. }
    split; [constructor|]. split; [lia|].
    intros Hcf Hm. exfalso.
    assert (Hng : ~ loop_goes_on after status).
    { rewrite <- continues_spec. congruence. }
    assert (Hne : ~ chunk_due after _mode).
    { rewrite <- emits_spec. congruence. }
    apply Hne. unfold chunk_due. unfold loop_goes_on in Hng.
    destruct (Z.eq_dec (zstream.avail_out after) 0) as [H0|H0]; [now left|].
    right. split; [|exact Hm].
    destruct (Z.eq_dec (fst (zlib_deflate_deflate before _mode)) Z_STREAM_END)
      as [He1|He1]; [now apply Hend|].
    destruct (Z.eq_dec (zstream.avail_in after) 0) as [Hi|Hi]; [exact Hi|].
    exfalso. apply Hng. split; [left; lia|].
    destruct Hc as [(_ & _ & H)|[(_ & _ & H)|(_ & _ & H)]];
      rewrite H in Hb; try discriminate; injection Hb as _ <- _ _; exact He1.
Qed.

Lemma push_loop_accounts (fuel : nat) (chunkSize _mode : Z)
    (this this' : Deflate) (status : Z) (calls : list Call) :
  0 <= chunkSize ->
  engine_appends _mode ->
  buffer_ready chunkSize this ->
  push_loop fuel chunkSize _mode this = Some (LoopExit status, this', calls) ->
  output_wf (strm this')
  /\ length (zstream.output (strm this')) = Z.to_nat chunkSize
  /\ concat (map chunk_payload (data_of calls))
     ++ (if emits (strm this') _mode then [] else filled (strm this'))
     = held this ++ loop_written fuel chunkSize _mode this
  /\ (_mode = Z_FINISH \/ _mode = Z_SYNC_FLUSH ->
        emits (strm this') _mode = true)
  /\ exists full last : list Chunk,
       data_of calls = full ++ last
       /\ Forall (fun ch => length (chunk_payload ch) = Z.to_nat chunkSize) full
       /\ Forall (fun ch => (length (chunk_payload ch) <= Z.to_nat chunkSize)%nat)
            last
       /\ (length last <= 1)%nat.
Proof.
  intros Hcs Heng. revert this this' status calls.
  induction fuel as [|fuel IH]; intros this this' status calls Hready;
    cbn [push_loop loop_written]; [discriminate|].
  destruct (push_body chunkSize _mode this) as [t cs|c st t cs] eqn:Eb;
    [destruct t; discriminate|].
  destruct (push_body_accounts _ _ _ _ _ _ _ Hcs Heng Hready Eb)
    as (Hs & Hwf & Hlen & Hacc & Hcont & Hbound & Hone & Hexit).
  destruct c.
  - destruct (push_loop fuel chunkSize _mode t) as [[[e t'] cs']|] eqn:El;
      [|discriminate].
    intros [= -> <- <-].
    destruct (Hcont eq_refl) as (Hheld & Hfull).
    assert (Hready' : buffer_ready chunkSize t).
    { right. rewrite Hs. tauto. }
    destruct (IH _ _ _ _ Hready' El)
      as (Hwf2 & Hlen2 & Hacc2 & Hexit2 & full & last & Hd & Hf & Hl & Hn).
    split; [exact Hwf2|]. split; [exact Hlen2|].
    split.
    { rewrite data_of_app, map_app, concat_app, <- !app_assoc, Hacc2, Hheld.
      now rewrite !app_assoc, Hacc. }
    split; [exact Hexit2|].
    exists (data_of cs ++ full), last.
    rewrite data_of_app, Hd, app_assoc.
    split; [reflexivity|]. split; [now apply Forall_app|]. tauto.
  - intros [= <- <- <-]. rewrite Hs.
    split; [exact Hwf|]. split; [exact Hlen|].
    split; [now rewrite app_nil_r|].
    split; [now apply Hexit|].
    exists [], (data_of cs). cbn [app]. repeat split; try assumption. constructor.
Qed.

(** X13.  Let the engine only append at the output cursor ([engine_appends]),
    the chunk capacity not be negative and the output buffer be as a
    constructor or an earlier push leaves it.  Then a push that returns true
    neither drops nor repeats nor reorders a byte: in Z_FINISH and
    Z_SYNC_FLUSH mode the bytes of the chunks it emits are exactly the bytes
    held over in the buffer followed by the bytes the engine wrote during the
    push; in any other mode the emitted bytes followed by the bytes still
    held in the buffer are.  Unless it finished the stream, the push leaves
    the buffer ready for the next one. *)
Theorem push_conserves_bytes (fuel : nat) (this this' : Deflate) (data : Data)
    (mode : Mode) (calls : list Call) :
  let chunkSize := opt.chunkSize (options this) in
  let _mode := flush_mode mode in
  let emitted := concat (map chunk_payload (data_of calls)) in
  let written := loop_written fuel chunkSize _mode (bind_input data this) in
  ended this = false ->
  0 <= chunkSize ->
  engine_appends _mode ->
  buffer_ready chunkSize this ->
  push fuel this data mode = Some (true, this', calls) ->
  (_mode = Z_FINISH \/ _mode = Z_SYNC_FLUSH -> emitted = held this ++ written)
  /\ (_mode <> Z_FINISH -> _mode <> Z_SYNC_FLUSH ->
        emitted ++ held this' = held this ++ written)
  /\ (_mode <> Z_FINISH -> buffer_ready chunkSize this').
Proof.
  intros chunkSize _mode emitted written Hend Hcs Heng Hready Hpush.
  destruct (push_live _ _ _ _ _ _ _ Hend Hpush)
    as [(st & em & _ & _ & _ & _ & Hx & _)|(st & t & em & Hloop & _ & Hp)];
    [discriminate|].
  fold chunkSize in Hloop. fold _mode in Hloop, Hp.
  assert (Hready' : buffer_ready chunkSize (bind_input data this)) by exact Hready.
  destruct (push_loop_accounts _ _ _ _ _ _ _ Hcs Heng Hready' Hloop)
    as (Hwf & Hlen & Hacc & Hexit & _).
  change (held (bind_input data this)) with (held this) in Hacc.
  fold written in Hacc.
  destruct (push_end_cases _mode t)
    as [(Hm & Hpe)|[(Hm1 & Hm2 & Hpe)|(Hm1 & Hm2 & Hpe)]];
    rewrite Hpe in Hp.
  - injection Hp as _ -> ->. subst emitted.
    rewrite data_of_app. cbn [data_of]. rewrite app_nil_r.
    rewrite (Hexit (or_introl Hm)), app_nil_r in Hacc.
    split; [intros _; exact Hacc|]. split; intros; contradiction.
  - injection Hp as -> ->. subst emitted.
    rewrite data_of_app. cbn [data_of]. rewrite app_nil_r.
    rewrite (Hexit (or_intror Hm2)), app_nil_r in Hacc.
    split; [intros _; exact Hacc|]. split; [intros; contradiction|].
    intros _. left. reflexivity.
  - injection Hp as -> ->. subst emitted. rewrite app_nil_r.
    split; [intros [H|H]; contradiction|].
    split; [|intros _; right; tauto].
    intros _ _. rewrite <- Hacc. f_equal. unfold held, emits.
    apply Z.eqb_neq in Hm1, Hm2. rewrite Hm1, Hm2. cbn [orb].
    rewrite andb_false_r, orb_false_r. reflexivity.
Qed.

(** X14.  Under the same conditions on the engine and the buffer, every
    chunk a push emits has at most [chunkSize] bytes, and all of them except
    possibly the last one have exactly [chunkSize] bytes. *)
Theorem push_chunk_sizes (fuel : nat) (this this' : Deflate) (data : Data)
    (mode : Mode) (calls : list Call) :
  let chunkSize := opt.chunkSize (options this) in
  ended this = false ->
  0 <= chunkSize ->
  engine_appends (flush_mode mode) ->
  buffer_ready chunkSize this ->
  push fuel this data mode = Some (true, this', calls) ->
  exists full last : list Chunk,
    data_of calls = full ++ last
    /\ Forall (fun ch => length (chunk_payload ch) = Z.to_nat chunkSize) full
    /\ Forall (fun ch => (length (chunk_payload ch) <= Z.to_nat chunkSize)%nat) last
    /\ (length last <= 1)%nat.
Proof.
  intros chunkSize Hend Hcs Heng Hready Hpush.
  destruct (push_live _ _ _ _ _ _ _ Hend Hpush)
    as [(st & em & _ & _ & _ & _ & Hx & _)|(st & t & em & Hloop & _ & Hp)];
    [discriminate|].
  fold chunkSize in Hloop.
  assert (Hready' : buffer_ready chunkSize (bind_input data this)) by exact Hready.
  destruct (push_loop_accounts _ _ _ _ _ _ _ Hcs Heng Hready' Hloop)
    as (_ & _ & _ & _ & full & last & Hd & Hf & Hl & Hn).
  exists full, last.
  split; [|tauto].
  destruct (push_end_cases (flush_mode mode) t)
    as [(Hm & Hpe)|[(Hm1 & Hm2 & Hpe)|(Hm1 & Hm2 & Hpe)]];
    rewrite Hpe in Hp.
  - injection Hp as _ _ ->. rewrite data_of_app. cbn [data_of].
    now rewrite app_nil_r.
  - injection Hp as _ ->. rewrite data_of_app. cbn [data_of].
    now rewrite app_nil_r.
  - injection Hp as _ ->. now rewrite app_nil_r.
Qed.

End DriverCoverage.

(** * The further properties on the stored-block engine *)

(** The stored-block engine only appends at the output cursor. *)
Lemma toy_engine_appends (_mode : Z) : @engine_appends toy.State _ _mode.
Proof.
  intros strm (Hn & Ha & Hsum) Hst.
  cbn [zlib_deflate_deflate toy.imports] in *. unfold toy.deflate in *.
  destruct (zstream.state strm) as [s|];
    [|cbn in Hst; destruct Hst; discriminate].
  destruct ((_mode >? 5) || (_mode <? 0));
    [cbn in Hst; destruct Hst; discriminate|].
  destruct ((zstream.avail_in strm =? 0) && (length (toy.pending s) =? 0)%nat
            && (_mode <=? toy.last_flush s) && negb (_mode =? 4));
    [cbn in Hst; destruct Hst; discriminate|].
  clear Hst. cbn [fst snd].
  set (queue := toy.pending s ++ _).
  set (n := Nat.min (Z.to_nat (zstream.avail_out strm)) (length queue)).
  assert (Hlen : length (firstn n queue) = n)
    by (rewrite length_firstn; subst n; lia).
  assert (Hset : length (common.set (zstream.output strm) (firstn n queue)
                           (Z.to_nat (zstream.next_out strm)))
                 = length (zstream.output strm)).
  { unfold common.set. rewrite !length_app, length_firstn, length_skipn, Hlen.
    subst n. lia. }
  unfold output_wf, filled, common.shrinkBuf.
  cbn [zstream.next_out zstream.avail_out zstream.output zstream.avail_in].
  rewrite Hset.
  split; [subst n; lia|]. split; [reflexivity|]. split; [lia|].
  split; [|split; [lia | reflexivity]].
  unfold common.set. rewrite firstn_app, length_firstn.
  replace (Z.to_nat (zstream.next_out strm)
           - Nat.min (Z.to_nat (zstream.next_out strm))
               (length (zstream.output strm)))%nat with 0%nat by lia.
  now rewrite firstn_firstn, Nat.min_id, firstn_O, app_nil_r.
Qed.

Lemma flush_mode_range_witness :
  - 2 ^ 31 <= 4 < 2 ^ 31 /\ flush_mode (ModeNumber 4) = 4.
Proof.
  assert (H : - 2 ^ 31 <= 4 < 2 ^ 31) by lia.
  split; [exact H|].
  destruct (flush_mode_range (ModeNumber 4)) as (_ & Hn & _).
  exact (proj1 (Hn 4 eq_refl) H).
Defined.


Lemma Deflate_new_outcome_witness :
  opt.dictionary (Deflate_options (Some toy.dictionary_empty_string))
  = Some (DataString "")
  /\ Deflate_new (Some toy.dictionary_empty_string)
     = inr (toy.new (Some toy.dictionary_empty_string))
  /\ _dict_set (toy.new (Some toy.dictionary_empty_string)) = false
  /\ _dict_set (toy.new (Some toy.dictionary_a)) = true.
Proof.
  assert (H1 : opt.dictionary (Deflate_options (Some toy.dictionary_empty_string))
               = Some (DataString "")) by reflexivity.
  assert (H2 : Deflate_new (Some toy.dictionary_empty_string)
               = inr (toy.new (Some toy.dictionary_empty_string)))
    by (vm_compute; reflexivity).
  assert (H3 : Deflate_new (Some toy.dictionary_a)
               = inr (toy.new (Some toy.dictionary_a)))
    by (vm_compute; reflexivity).
  destruct (Deflate_new_outcome (Some toy.dictionary_empty_string))
    as (_ & _ & _ & Hempty).
  destruct (Deflate_new_outcome (Some toy.dictionary_a)) as (_ & _ & Hlive & _).
  destruct (Hempty H1 _ H2) as (Hd & _).
  destruct (Hlive _ H3) as (_ & _ & _ & _ & _ & _ & Hd' & _).
  split; [exact H1|]. split; [exact H2|]. split; [exact Hd|].
  rewrite Hd'. reflexivity.
Defined.

Lemma push_calls_shape_witness :
  push 100 (toy.new toy.chunk4) toy.hello (ModeBool true)
  = Some (true, toy.after (toy.new toy.chunk4) toy.hello (ModeBool true),
          toy.hello_calls ++ [OnEnd 0])
  /\ (count_ends (toy.hello_calls ++ [OnEnd 0]) <= 1)%nat.
Proof.
  assert (H : push 100 (toy.new toy.chunk4) toy.hello (ModeBool true)
              = Some (true, toy.after (toy.new toy.chunk4) toy.hello (ModeBool true),
                      toy.hello_calls ++ [OnEnd 0])) by (vm_compute; reflexivity).
  split; [exact H|].
  exact (proj1 (proj2 (push_calls_shape _ _ _ _ _ _ _ H))).
Defined.

Lemma push_result_agrees_witness :
  ended (toy.new toy.chunk4) = false
  /\ push 100 (toy.new toy.chunk4) toy.hello (ModeNumber 7)
     = Some (false, toy.after (toy.new toy.chunk4) toy.hello (ModeNumber 7),
             [OnEnd (-2)])
  /\ ended (toy.after (toy.new toy.chunk4) toy.hello (ModeNumber 7)) = true
  /\ err (toy.after (toy.new toy.chunk4) toy.hello (ModeNumber 7)) <> 0.
Proof.
  assert (H0 : ended (toy.new toy.chunk4) = false) by reflexivity.
  assert (H : push 100 (toy.new toy.chunk4) toy.hello (ModeNumber 7)
              = Some (false, toy.after (toy.new toy.chunk4) toy.hello (ModeNumber 7),
                      [OnEnd (-2)])) by (vm_compute; reflexivity).
  destruct (push_result_agrees _ _ _ _ _ _ _ H0 H) as (Hfalse & _).
  destruct (Hfalse eq_refl) as (He & Herr & _).
  split; [exact H0|]. split; [exact H|]. split; [exact He | exact Herr].
Defined.

Lemma push_frame_witness :
  push 100 (toy.new toy.chunk4) toy.hello (ModeBool false)
  = Some (true, toy.after (toy.new toy.chunk4) toy.hello (ModeBool false),
          toy.hello_calls)
  /\ ended (toy.new toy.chunk4) = false
  /\ flush_mode (ModeBool false) <> Z_FINISH
  /\ flush_mode (ModeBool false) <> Z_SYNC_FLUSH
  /\ options (toy.after (toy.new toy.chunk4) toy.hello (ModeBool false))
     = options (toy.new toy.chunk4)
  /\ chunks (toy.after (toy.new toy.chunk4) toy.hello (ModeBool false))
     = chunks (toy.new toy.chunk4) ++ data_of toy.hello_calls
  /\ result (toy.after (toy.new toy.chunk4) toy.hello (ModeBool false))
     = result (toy.new toy.chunk4).
Proof.
  assert (H : push 100 (toy.new toy.chunk4) toy.hello (ModeBool false)
              = Some (true, toy.after (toy.new toy.chunk4) toy.hello (ModeBool false),
                      toy.hello_calls)) by (vm_compute; reflexivity).
  assert (H0 : ended (toy.new toy.chunk4) = false) by reflexivity.
  assert (H1 : flush_mode (ModeBool false) <> Z_FINISH) by discriminate.
  assert (H2 : flush_mode (ModeBool false) <> Z_SYNC_FLUSH) by discriminate.
  destruct (push_frame _ _ _ _ _ _ _ H) as (Ho & _ & Hrest).
  destruct (Hrest H0 eq_refl H1 H2) as (_ & _ & Hres & Hch & _).
  split; [exact H|]. split; [exact H0|]. split; [exact H1|].
  split; [exact H2|]. split; [exact Ho|]. split; [exact Hch | exact Hres].
Defined.


Lemma push_flush_result_witness :
  ended (toy.new toy.chunk4) = false
  /\ flush_mode (ModeNumber Z_SYNC_FLUSH) = Z_SYNC_FLUSH
  /\ push 100 (toy.new toy.chunk4) toy.hello (ModeNumber Z_SYNC_FLUSH)
     = Some (true,
             toy.after (toy.new toy.chunk4) toy.hello (ModeNumber Z_SYNC_FLUSH),
             toy.hello_calls ++ [OnData (ChunkBytes []); OnEnd 0])
  /\ push 100 (toy.after (toy.new toy.chunk4) toy.hello (ModeNumber Z_SYNC_FLUSH))
       toy.abc (ModeBool true)
     = Some (true,
             toy.after
               (toy.after (toy.new toy.chunk4) toy.hello (ModeNumber Z_SYNC_FLUSH))
               toy.abc (ModeBool true),
             [OnData (ChunkBytes [x61; x62; x63]); OnEnd 0])
  /\ result
       (toy.after
          (toy.after (toy.new toy.chunk4) toy.hello (ModeNumber Z_SYNC_FLUSH))
          toy.abc (ModeBool true))
     = Some (ChunkBytes [x61; x62; x63]).
Proof.
  assert (H0 : ended (toy.new toy.chunk4) = false) by reflexivity.
  assert (H1 : flush_mode (ModeNumber Z_SYNC_FLUSH) = Z_SYNC_FLUSH) by reflexivity.
  assert (H2 : push 100 (toy.new toy.chunk4) toy.hello (ModeNumber Z_SYNC_FLUSH)
               = Some (true,
                       toy.after (toy.new toy.chunk4) toy.hello
                         (ModeNumber Z_SYNC_FLUSH),
                       toy.hello_calls ++ [OnData (ChunkBytes []); OnEnd 0]))
    by (vm_compute; reflexivity).
  assert (H3 : push 100
                 (toy.after (toy.new toy.chunk4) toy.hello (ModeNumber Z_SYNC_FLUSH))
                 toy.abc (ModeBool true)
               = Some (true,
                       toy.after
                         (toy.after (toy.new toy.chunk4) toy.hello
                            (ModeNumber Z_SYNC_FLUSH))
                         toy.abc (ModeBool true),
                       [OnData (ChunkBytes [x61; x62; x63]); OnEnd 0]))
    by (vm_compute; reflexivity).
  destruct (push_flush_result _ _ _ _ _ _ H0 (or_intror H1) H2)
    as (_ & _ & _ & Hnext).
  pose proof (Hnext H1 100%nat toy.abc (ModeBool true) _ _ (or_introl eq_refl) H3)
    as Hres.
  split; [exact H0|]. split; [exact H1|]. split; [exact H2|].
  split; [exact H3|]. rewrite Hres. vm_compute. reflexivity.
Defined.

Lemma deflate_returns_value_witness :
  snd (deflate 100 toy.heap1 toy.hello (Some 3%positive))
  = Some (Return (Some (ChunkBytes (String.list_byte_of_string "hello, world"))))
  /\ exists chunk : Chunk,
       Some (ChunkBytes (String.list_byte_of_string "hello, world")) = Some chunk
       /\ is_string chunk
          = String.eqb
              (opt.to (Deflate_options (Some 3%positive ≫= (toy.heap1 !!.))))
              "string".
Proof.
  assert (H : snd (deflate 100 toy.heap1 toy.hello (Some 3%positive))
              = Some (Return (Some (ChunkBytes
                                      (String.list_byte_of_string "hello, world")))))
    by (vm_compute; reflexivity).
  split; [exact H|].
  exact (proj1 (deflate_returns_value 100 toy.heap1 toy.hello (Some 3%positive))
           _ H).
Defined.


Lemma one_shot_options_reuse_witness :
  toy.heap1 !! 3%positive = Some toy.plain15
  /\ opt.windowBits (assign defaults toy.plain15) > 0
  /\ opt.windowBits
       (Deflate_options (Some (arg.set_gzip true (arg.set_raw true toy.plain15))))
     = - opt.windowBits (assign defaults toy.plain15)
  /\ fst (gzip 100 (fst (deflateRaw 100 toy.heap1 toy.hello (Some 3%positive)))
            toy.abc (Some 3%positive)) !! 3%positive
     = Some (arg.set_gzip true (arg.set_raw true toy.plain15)).
Proof.
  assert (H : toy.heap1 !! 3%positive = Some toy.plain15)
    by (vm_compute; reflexivity).
  assert (Hw : opt.windowBits (assign defaults toy.plain15) > 0) by reflexivity.
  destruct (one_shot_options_reuse 100 100 toy.heap1 toy.hello toy.abc 3%positive
              toy.plain15 H) as (_ & _ & _ & Hobj & Hbits & _).
  split; [exact H|]. split; [exact Hw|]. split; [exact (Hbits Hw) | exact Hobj].
Defined.

Lemma push_conserves_bytes_witness :
  ended toy.holding_abc = false
  /\ 0 <= opt.chunkSize (options toy.holding_abc)
  /\ buffer_ready (opt.chunkSize (options toy.holding_abc)) toy.holding_abc
  /\ push 100 toy.holding_abc toy.hello (ModeBool true)
     = Some (true, toy.after toy.holding_abc toy.hello (ModeBool true),
             toy.abc_hello_calls)
  /\ held toy.holding_abc = [x61; x62; x63]
  /\ concat (map chunk_payload (data_of toy.abc_hello_calls))
     = held toy.holding_abc
       ++ loop_written 100 (opt.chunkSize (options toy.holding_abc))
            (flush_mode (ModeBool true)) (bind_input toy.hello toy.holding_abc).
Proof.
  assert (H0 : ended toy.holding_abc = false) by (vm_compute; reflexivity).
  assert (H1 : 0 <= opt.chunkSize (options toy.holding_abc))
    by (vm_compute; discriminate).
  assert (H2 : buffer_ready (opt.chunkSize (options toy.holding_abc))
                 toy.holding_abc).
  { right. split; [|vm_compute; reflexivity].
    split; [vm_compute; discriminate|].
    split; [vm_compute; discriminate | vm_compute; reflexivity]. }
  assert (H3 : push 100 toy.holding_abc toy.hello (ModeBool true)
               = Some (true, toy.after toy.holding_abc toy.hello (ModeBool true),
                       toy.abc_hello_calls)) by (vm_compute; reflexivity).
  assert (H4 : held toy.holding_abc = [x61; x62; x63]) by (vm_compute; reflexivity).
  destruct (push_conserves_bytes 100 toy.holding_abc _ toy.hello (ModeBool true) _
              H0 H1 (toy_engine_appends _) H2 H3) as (Hflush & _).
  split; [exact H0|]. split; [exact H1|]. split; [exact H2|].
  split; [exact H3|]. split; [exact H4|].
  exact (Hflush (or_introl eq_refl)).
Defined.

Lemma push_chunk_sizes_witness :
  ended toy.holding_abc = false
  /\ 0 <= opt.chunkSize (options toy.holding_abc)
  /\ buffer_ready (opt.chunkSize (options toy.holding_abc)) toy.holding_abc
  /\ push 100 toy.holding_abc toy.hello (ModeBool true)
     = Some (true, toy.after toy.holding_abc toy.hello (ModeBool true),
             toy.abc_hello_calls)
  /\ exists full last : list Chunk,
       data_of toy.abc_hello_calls = full ++ last
       /\ Forall (fun ch => length (chunk_payload ch)
                            = Z.to_nat (opt.chunkSize (options toy.holding_abc)))
            full
       /\ Forall (fun ch => (length (chunk_payload ch)
                             <= Z.to_nat (opt.chunkSize (options toy.holding_abc)))%nat)
            last
       /\ (length last <= 1)%nat.
Proof.
  assert (H0 : ended toy.holding_abc = false) by (vm_compute; reflexivity).
  assert (H1 : 0 <= opt.chunkSize (options toy.holding_abc))
    by (vm_compute; discriminate).
  assert (H2 : buffer_ready (opt.chunkSize (options toy.holding_abc))
                 toy.holding_abc).
  { right. split; [|vm_compute; reflexivity].
    split; [vm_compute; discriminate|].
    split; [vm_compute; discriminate | vm_compute; reflexivity]. }
  assert (H3 : push 100 toy.holding_abc toy.hello (ModeBool true)
               = Some (true, toy.after toy.holding_abc toy.hello (ModeBool true),
                       toy.abc_hello_calls)) by (vm_compute; reflexivity).
  split; [exact H0|]. split; [exact H1|]. split; [exact H2|].
  split; [exact H3|].
  exact (push_chunk_sizes 100 toy.holding_abc _ toy.hello (ModeBool true) _
           H0 H1 (toy_engine_appends _) H2 H3).
Defined.
